(** * SharePoint Excel interface: the client-side change tracker

    A shallow embedding of [app/static/js/app.js] (class
    [SharePointExcelApp]): the pending-change map filled by
    [onCellChanged], the bulk commit [saveAllChanges], the modal create
    path [saveRowFromModal] with [validateRowData], the sequential
    [deleteSelectedRows] and [refreshData] / [loadInitialData].

    JavaScript values are a small tagged union, objects are finite maps
    from property names to values, the ES6 [Map] is an insertion-ordered
    association list, and every handler is a computation over the
    application object that logs the DOM and network effects it performs.
    A handler is run to quiescence: no other event is interleaved with its
    awaits, and an asynchronous call that the source starts without
    awaiting it ([this.refreshData()], the stored confirm action) is run to
    its end where it is started. *)

From stdpp Require Import base decidable option list strings gmap fin_maps pretty.
From Stdlib Require Import ZArith Lia.

Local Open Scope Z_scope.

(** ** JavaScript values *)

(** The primitive values a cell, a JSON scalar or a form field can hold.
    Numbers are the integers (exact in a double) and [NaN]. *)
Inductive JsValue : Type :=
  | VUndefined
  | VNull
  | VBool (b : bool)
  | VNum (n : Z)
  | VNaN
  | VStr (s : string).

#[global] Instance JsValue_eq_dec : EqDecision JsValue.
Proof. solve_decision. Defined.

(** [ToBoolean]: [undefined], [null], [false], [0], [NaN] and [''] are
    falsy. *)
Definition truthy (v : JsValue) : bool :=
  match v with
  | VUndefined | VNull | VNaN => false
  | VBool b => b
  | VNum n => negb (n =? 0)%Z
  | VStr s => negb (String.eqb s "")
  end.

(** [a || b] *)
Definition js_or (a b : JsValue) : JsValue := if truthy a then a else b.

(** [a === b] on primitives: same tag and same payload, [NaN] equal to
    nothing. *)
Definition strict_eq (a b : JsValue) : bool :=
  match a, b with
  | VNaN, _ | _, VNaN => false
  | _, _ => bool_decide (a = b)
  end.

(** [String(v)], as used by [+] with a string and by template literals. *)
Definition to_string (v : JsValue) : string :=
  match v with
  | VUndefined => "undefined"
  | VNull => "null"
  | VBool true => "true"
  | VBool false => "false"
  | VNum n => pretty n
  | VNaN => "NaN"
  | VStr s => s
  end.

(** [s.startsWith(p)] *)
Fixpoint startsWith (p s : string) : bool :=
  match p, s with
  | EmptyString, _ => true
  | String a p', String b s' => if Ascii.eqb a b then startsWith p' s' else false
  | String _ _, EmptyString => false
  end.

(** ** Objects *)

(** A plain object: property name to value. *)
Abbreviation JsObject := (gmap string JsValue).

(** [o[k]] over the properties of [o] itself: [undefined] for a missing
    property. The members a plain object inherits are not modelled, so
    this is the lookup of the code for every name outside
    [object_prototype_names], below. *)
Definition get_prop (o : JsObject) (k : string) : JsValue :=
  default VUndefined (o !! k).

(** The names a plain object inherits from [Object.prototype]: a lookup
    under one of them finds the inherited member when the object has no
    property of its own, and an assignment to [__proto__] stores no
    property. Statements that depend on the difference leave these names
    out. *)
Definition object_prototype_names : list string :=
  ["constructor"; "__defineGetter__"; "__defineSetter__"; "hasOwnProperty";
   "__lookupGetter__"; "__lookupSetter__"; "isPrototypeOf"; "propertyIsEnumerable";
   "toString"; "valueOf"; "__proto__"; "toLocaleString"].

(** [{...a, ...b}]: the properties of [b] override those of [a]. *)
Definition spread (a b : JsObject) : JsObject := b ∪ a.

(** ** The ES6 Map: insertion-ordered, one entry per key *)

Abbreviation JsMap V := (list (JsValue * V)).

Section JsMap.
Context {V : Type}.

Fixpoint map_get (k : JsValue) (m : JsMap V) : option V :=
  match m with
  | [] => None
  | (k', v) :: m' => if decide (k' = k) then Some v else map_get k m'
  end.

Definition map_has (k : JsValue) (m : JsMap V) : bool :=
  match map_get k m with Some _ => true | None => false end.

(** [m.set(k, v)]: an existing key keeps its position, a new key goes
    last. *)
Fixpoint map_set (k : JsValue) (v : V) (m : JsMap V) : JsMap V :=
  match m with
  | [] => [(k, v)]
  | (k', v') :: m' =>
      if decide (k' = k) then (k, v) :: m' else (k', v') :: map_set k v m'
  end.

(** In-place mutation of the object stored under [k]
    ([m.get(k).p = x]); without an entry nothing is stored. *)
Fixpoint map_mutate (k : JsValue) (f : V → V) (m : JsMap V) : JsMap V :=
  match m with
  | [] => []
  | (k', v') :: m' =>
      if decide (k' = k) then (k', f v') :: m' else (k', v') :: map_mutate k f m'
  end.

Definition map_size (m : JsMap V) : nat := length m.

Definition map_keys (m : JsMap V) : list JsValue := m.*1.
End JsMap.

(** ** Data model *)

Record Field : Type := mkField {
  name : string;
  title : string;
  type : string;
  required : bool;
  choices : list string
}.

Record PendingEntry : Type := mkEntry {
  original : JsObject;
  changes : JsObject
}.

(** The [cellEditingStopped] event, as far as the handler reads it
    ([event.data], [event.colDef.field], [event.newValue],
    [event.oldValue]). *)
Record CellEvent : Type := mkEvent {
  data : JsObject;
  colDef_field : string;
  newValue : JsValue;
  oldValue : JsValue
}.

Inductive Operation : Type :=
  | OpCreate (op_data : JsObject)
  | OpUpdate (op_id : JsValue) (op_data : JsObject).

Inductive Request : Type :=
  | GetFields
  | GetData
  | PostItem (body : JsObject)
  | DeleteItem (id : string)
  | PostBulk (operations : list Operation)
  | GetExport (format : string).

(** What the handlers read of a parsed JSON body: [error], [fields],
    [items], [total], [success], and [errors] through
    [JSON.stringify(result.errors)]. *)
Record JsonBody : Type := mkBody {
  j_error : JsValue;
  j_fields : option (list Field);
  j_items : option (list JsObject);
  j_total : JsValue;
  j_success : JsValue;
  j_errors : string
}.

(** A settled [fetch]: rejected (network failure), or a response with its
    [ok] flag whose [json()] either rejects or yields a body. *)
Record Response : Type := mkResponse {
  ok : bool;
  json : string + JsonBody
}.

Inductive Reply : Type :=
  | Rejected (message : string)
  | Responded (response : Response).

(** DOM and network effects, one constructor per method called. *)
Inductive Effect : Type :=
  | Fetch (request : Request)
  | ShowToast (message type : string)
  | ShowLoading (show : bool)
  | ShowError (message : option string)
  | ConsoleError (message : string)
  | SetColumnDefs (columns : list Field)
  | SetRowData (rows : list JsObject)
  | UpdateStatusInfo (total : JsValue)
  | SetRowClass (class : string)
  | UpdatePendingChangesCount (size : nat)
  | EnableSaveButton (enabled : bool)
  | SetConfirmMessage (text : string)
  | ShowModal (id : string)
  | HideModal (id : string).

(** The fields of [this]. [pendingConfirmAction] is the closure built by
    [deleteSelectedRows], represented by the selection it captured. *)
Record App : Type := mkApp {
  fields : list Field;
  pendingChanges : JsMap PendingEntry;
  isConnected : bool;
  currentData : list JsObject;
  pendingConfirmAction : option (list JsObject)
}.

(** The constructor's state, before [loadInitialData] has run. *)
Definition new_app : App :=
  {| fields := []; pendingChanges := []; isConnected := false;
     currentData := []; pendingConfirmAction := None |}.

(** ** Handlers as computations *)

Inductive Outcome (A : Type) : Type :=
  | Ok (a : A)
  | Throw (message : string).
Arguments Ok {A} a.
Arguments Throw {A} message.

(** The application object, the effects logged so far, and the number of
    requests issued so far. *)
Record World : Type := mkWorld {
  app : App;
  log : list Effect;
  issued : nat
}.

Definition M (A : Type) : Type := World → Outcome A * World.

#[global] Instance M_ret : MRet M := λ A a w, (Ok a, w).

#[global] Instance M_bind : MBind M := λ A B f c w,
  match c w with
  | (Ok a, w') => f a w'
  | (Throw e, w') => (Throw e, w')
  end.

Definition throw {A} (message : string) : M A := λ w, (Throw message, w).

(** [try { c } catch (error) { h error.message }] *)
Definition try_catch {A} (c : M A) (h : string → M A) : M A := λ w,
  match c w with
  | (Ok a, w') => (Ok a, w')
  | (Throw e, w') => h e w'
  end.

(** [try { c } finally { f }] *)
Definition finally {A} (c : M A) (f : M unit) : M A := λ w,
  match c w with
  | (r, w') =>
      match f w' with
      | (Ok _, w'') => (r, w'')
      | (Throw e, w'') => (Throw e, w'')
      end
  end.

Definition emit (e : Effect) : M unit := λ w,
  (Ok (), {| app := app w; log := log w ++ [e]; issued := issued w |}).

Definition get_app : M App := λ w, (Ok (app w), w).

Definition modify_app (f : App → App) : M unit := λ w,
  (Ok (), {| app := f (app w); log := log w; issued := issued w |}).

Definition set_fields (x : list Field) (a : App) : App :=
  {| fields := x; pendingChanges := pendingChanges a; isConnected := isConnected a;
     currentData := currentData a; pendingConfirmAction := pendingConfirmAction a |}.
Definition set_pendingChanges (x : JsMap PendingEntry) (a : App) : App :=
  {| fields := fields a; pendingChanges := x; isConnected := isConnected a;
     currentData := currentData a; pendingConfirmAction := pendingConfirmAction a |}.
Definition set_isConnected (x : bool) (a : App) : App :=
  {| fields := fields a; pendingChanges := pendingChanges a; isConnected := x;
     currentData := currentData a; pendingConfirmAction := pendingConfirmAction a |}.
Definition set_currentData (x : list JsObject) (a : App) : App :=
  {| fields := fields a; pendingChanges := pendingChanges a; isConnected := isConnected a;
     currentData := x; pendingConfirmAction := pendingConfirmAction a |}.
Definition set_pendingConfirmAction (x : option (list JsObject)) (a : App) : App :=
  {| fields := fields a; pendingChanges := pendingChanges a; isConnected := isConnected a;
     currentData := currentData a; pendingConfirmAction := x |}.

(** Running a handler on an application object, from an empty log. *)
Definition run {A} (c : M A) (a : App) : Outcome A * World :=
  c {| app := a; log := []; issued := 0 |}.

(** The requests among logged effects, in order. *)
Definition requests (l : list Effect) : list Request :=
  omap (λ e, match e with Fetch r => Some r | _ => None end) l.

(** *** Presentation helpers *)

Definition showToast (message type : string) : M unit := emit (ShowToast message type).
Definition showLoading (show : bool) : M unit := emit (ShowLoading show).
Definition showError (message : option string) : M unit := emit (ShowError message).
Definition updateStatusInfo (total : JsValue) : M unit := emit (UpdateStatusInfo total).
Definition enableSaveButton (enabled : bool) : M unit := emit (EnableSaveButton enabled).

Definition updatePendingChangesCount : M unit :=
  a ← get_app; emit (UpdatePendingChangesCount (map_size (pendingChanges a))).

(** [setupColumns] hands the grid one column per field; only the call is
    logged. *)
Definition setupColumns : M unit :=
  a ← get_app; emit (SetColumnDefs (fields a)).

(** ** The change tracker *)

(** [event.data.ID || 'new_' + Date.now()] *)
Definition rowId_of (now : Z) (event : CellEvent) : JsValue :=
  js_or (get_prop (data event) "ID") (VStr ("new_" +:+ to_string (VNum now))).

(** The update [onCellChanged] makes to [this.pendingChanges]. The
    assignment [changes[fieldName] = newValue] is an insertion for every
    field name but [__proto__], under which JavaScript stores no
    property; that one column is outside the model. *)
Definition track (rowId : JsValue) (event : CellEvent)
    (m : JsMap PendingEntry) : JsMap PendingEntry :=
  let m1 :=
    if negb (map_has rowId m)
    then map_set rowId {| original := data event; changes := ∅ |} m
    else m in
  map_mutate rowId
    (λ e, {| original := original e;
             changes := <[colDef_field event := newValue event]> (changes e) |})
    m1.

Definition onCellChanged (now : Z) (event : CellEvent) : M unit :=
  let rowId := rowId_of now event in
  if negb (strict_eq (newValue event) (oldValue event)) then
    modify_app (λ a, set_pendingChanges (track rowId event (pendingChanges a)) a);;
    emit (SetRowClass "ag-row-pending");;
    updatePendingChangesCount;;
    enableSaveButton true
  else mret ().

(** *** Validation of a row submitted through the modal *)

(** The body of the [forEach] in [validateRowData]: what one field pushes
    onto [errors]. *)
Definition field_errors (data : JsObject) (field : Field) : list string :=
  if required field
     && (negb (truthy (get_prop data (name field)))
         || strict_eq (get_prop data (name field)) (VStr ""))
  then [title field +:+ " is required"]
  else [].

Definition validateRowData (fields : list Field) (data : JsObject) : list string :=
  fields ≫= field_errors data.

(** [l.join(sep)] *)
Fixpoint join (sep : string) (l : list string) : string :=
  match l with
  | [] => ""
  | [s] => s
  | s :: l' => s +:+ sep +:+ join sep l'
  end.

Definition newline : string := String (Ascii.ascii_of_nat 10) "".

(** *** Bulk operations *)

(** The loop of [saveAllChanges] over the map entries, in insertion
    order. [rowId.startsWith] exists only on strings: any other key raises
    a [TypeError]. *)
Fixpoint build_operations (m : JsMap PendingEntry) : Outcome (list Operation) :=
  match m with
  | [] => Ok []
  | (rowId, change) :: m' =>
      match rowId with
      | VStr s =>
          let op :=
            if startsWith "new_" s
            then OpCreate (spread (original change) (changes change))
            else OpUpdate rowId (changes change) in
          match build_operations m' with
          | Ok ops => Ok (op :: ops)
          | Throw e => Throw e
          end
      | _ => Throw "TypeError: rowId.startsWith is not a function"
      end
  end.

Section Handlers.
(** The backend: the reply to the [n]-th request of a run. *)
Variable backend : nat → Request → Reply.
(** The built-in [parseFloat]. *)
Variable parseFloat : string → JsValue.

(** [await fetch(...)]: logs the request; a rejected promise throws. *)
Definition fetch (r : Request) : M Response := λ w,
  let w' := {| app := app w; log := log w ++ [Fetch r]; issued := S (issued w) |} in
  match backend (issued w) r with
  | Rejected e => (Throw e, w')
  | Responded resp => (Ok resp, w')
  end.

(** [await response.json()] *)
Definition response_json (resp : Response) : M JsonBody :=
  match json resp with
  | inl e => throw e
  | inr b => mret b
  end.

Definition loadInitialData : M unit :=
  showLoading true;;
  finally
    (try_catch
       (fieldsResponse ← fetch GetFields;
        fieldsData ← response_json fieldsResponse;
        (if truthy (j_error fieldsData)
         then throw (to_string (j_error fieldsData)) else mret ());;
        modify_app (set_fields (default [] (j_fields fieldsData)));;
        setupColumns;;
        dataResponse ← fetch GetData;
        data ← response_json dataResponse;
        (if truthy (j_error data)
         then throw (to_string (j_error data)) else mret ());;
        modify_app (set_currentData (default [] (j_items data)));;
        a ← get_app;
        emit (SetRowData (currentData a));;
        updateStatusInfo (js_or (j_total data) (VNum 0));;
        modify_app (set_isConnected true);;
        showError None)
       (λ error,
          emit (ConsoleError error);;
          showError (Some error);;
          modify_app (set_isConnected false)))
    (showLoading false).

Definition refreshData : M unit :=
  loadInitialData;;
  modify_app (set_pendingChanges []);;
  updatePendingChangesCount;;
  enableSaveButton false.

(** The conversion loop of [saveRowFromModal] over
    [formData.entries()]; [checked] reads a checkbox of the form. *)
Definition form_entry (fields : list Field) (checked : string → bool)
    (data : JsObject) (entry : string * string) : JsObject :=
  let '(key, value) := entry in
  match List.find (λ f, bool_decide (name f = key)) fields with
  | Some field =>
      if bool_decide (type field = "Boolean") then
        <[key := VBool (checked key)]> data
      else if bool_decide (type field = "Number") then
        <[key := if truthy (VStr value) then parseFloat value else VNull]> data
      else
        <[key := js_or (VStr value) VNull]> data
  | None => data
  end.

Definition form_data (fields : list Field) (checked : string → bool)
    (entries : list (string * string)) : JsObject :=
  foldl (form_entry fields checked) ∅ entries.

Definition saveRowFromModal (entries : list (string * string))
    (checked : string → bool) : M unit :=
  a ← get_app;
  let data := form_data (fields a) checked entries in
  let errors := validateRowData (fields a) data in
  if decide (0 < length errors)%nat then
    showToast ("Please fix the following errors:" +:+ newline +:+ join newline errors)
      "error"
  else
    try_catch
      (response ← fetch (PostItem data);
       result ← response_json response;
       if truthy (j_success result) then
         showToast "Row added successfully" "success";;
         emit (HideModal "editModal");;
         refreshData
       else
         throw (to_string (js_or (j_error result) (VStr "Failed to add row"))))
      (λ error, showToast ("Error adding row: " +:+ error) "error").

(** The [for ... of selectedRows] loop of the confirmed delete. *)
Fixpoint delete_loop (rows : list JsObject) : M unit :=
  match rows with
  | [] => mret ()
  | row :: rows' =>
      response ← fetch (DeleteItem (to_string (get_prop row "ID")));
      if negb (ok response)
      then throw ("Failed to delete row " +:+ to_string (get_prop row "ID"))
      else delete_loop rows'
  end.

(** The closure stored in [this.pendingConfirmAction]. *)
Definition confirm_delete (selectedRows : list JsObject) : M unit :=
  try_catch
    (delete_loop selectedRows;;
     showToast (pretty (length selectedRows) +:+ " row(s) deleted successfully")
       "success";;
     refreshData)
    (λ error, showToast ("Error deleting rows: " +:+ error) "error").

(** [selectedRows] is what [gridApi.getSelectedRows()] returns. *)
Definition deleteSelectedRows (selectedRows : list JsObject) : M unit :=
  if decide (length selectedRows = 0%nat) then
    showToast "Please select rows to delete" "error"
  else
    emit (SetConfirmMessage
            ("Are you sure you want to delete " +:+ pretty (length selectedRows)
             +:+ " row(s)? This action cannot be undone."));;
    modify_app (set_pendingConfirmAction (Some selectedRows));;
    emit (ShowModal "confirmModal").

(** The stored action is started and not awaited; it is run here to its
    end before the handler continues. [bootstrap.Modal.getInstance]
    finds the modal that [deleteSelectedRows] created; a click before any
    deletion was asked for, when there is no such modal and [hide] is
    called on [null], is outside the model. *)
Definition executeConfirmedAction : M unit :=
  a ← get_app;
  match pendingConfirmAction a with
  | Some selectedRows =>
      confirm_delete selectedRows;;
      modify_app (set_pendingConfirmAction None)
  | None => mret ()
  end;;
  emit (HideModal "confirmModal").

Definition saveAllChanges : M unit :=
  a ← get_app;
  if decide (map_size (pendingChanges a) = 0%nat) then
    showToast "No changes to save" "info"
  else
    match build_operations (pendingChanges a) with
    | Throw e => throw e
    | Ok operations =>
        try_catch
          (response ← fetch (PostBulk operations);
           result ← response_json response;
           if truthy (j_success result) then
             showToast "All changes saved successfully" "success";;
             modify_app (set_pendingChanges []);;
             updatePendingChangesCount;;
             enableSaveButton false;;
             refreshData
           else
             throw ("Some operations failed: " +:+ j_errors result))
          (λ error, showToast ("Error saving changes: " +:+ error) "error")
    end.
End Handlers.

(** ** Editing sessions *)

(** A cell edit as the handler sees it: the clock reading [Date.now()]
    and the grid event. *)
Definition Edit : Type := Z * CellEvent.

(** The guard [newValue !== oldValue] of [onCellChanged]. *)
Definition effective (event : CellEvent) : bool :=
  negb (strict_eq (newValue event) (oldValue event)).

(** The handler called once per edit, in order. *)
Fixpoint session (edits : list Edit) : M unit :=
  match edits with
  | [] => mret ()
  | (now, event) :: edits' => onCellChanged now event;; session edits'
  end.

(** The effect of one handler call on the pending map. *)
Definition track_edit (m : JsMap PendingEntry) (edit : Edit) : JsMap PendingEntry :=
  if effective edit.2 then track (rowId_of edit.1 edit.2) edit.2 m else m.

(** The effective edits that the handler files under [rowId]. *)
Definition edits_of (rowId : JsValue) (edits : list Edit) : list CellEvent :=
  omap (λ edit : Edit,
          if effective edit.2 && bool_decide (rowId_of edit.1 edit.2 = rowId)
          then Some edit.2 else None)
       edits.

(** Last-write-wins, in the words of the specification: the value of the
    latest edit of [field], if there is one. *)
Fixpoint last_write (field : string) (events : list CellEvent) : option JsValue :=
  match events with
  | [] => None
  | event :: events' =>
      match last_write field events' with
      | Some v => Some v
      | None =>
          if decide (colDef_field event = field) then Some (newValue event) else None
      end
  end.

(** The entries of a map stored under one key. *)
Definition entries_for {V} (k : JsValue) (m : JsMap V) : list (JsValue * V) :=
  filter (λ kv, kv.1 = k) m.

(** What one more edit makes of the entry of its row. *)
Definition merge_edit (entry : option PendingEntry) (event : CellEvent)
    : option PendingEntry :=
  Some {| original := from_option original (data event) entry;
          changes := <[colDef_field event := newValue event]>
                       (from_option changes ∅ entry) |}.

(** ** Reading a run *)

(** The toasts among logged effects, in order, as (message, type). *)
Definition toasts (l : list Effect) : list (string * string) :=
  omap (λ e, match e with ShowToast m t => Some (m, t) | _ => None end) l.

(** Whether the reply to the schema request lets [loadInitialData] go on
    to the row request: a body arrived and its [error] is falsy. *)
Definition body_ok (reply : Reply) : bool :=
  match reply with
  | Responded resp =>
      match json resp with
      | inr b => negb (truthy (j_error b))
      | inl _ => false
      end
  | Rejected _ => false
  end.

(** The requests a refresh issues when it starts as request [n]. *)
Definition refresh_requests (backend : nat → Request → Reply) (n : nat) : list Request :=
  GetFields :: (if body_ok (backend n GetFields) then [GetData] else []).

(** The request that deletes one selected row. *)
Definition delete_request (row : JsObject) : Request :=
  DeleteItem (to_string (get_prop row "ID")).

(** A delete succeeds when a response arrives with [ok] set. *)
Definition delete_ok (reply : Reply) : bool :=
  match reply with
  | Responded resp => ok resp
  | Rejected _ => false
  end.

(** The message of the error a failed delete raises. *)
Definition delete_error (reply : Reply) (row : JsObject) : string :=
  match reply with
  | Responded _ => "Failed to delete row " +:+ to_string (get_prop row "ID")
  | Rejected e => e
  end.

(** The submitted value is absent or the empty string. *)
Definition absent_or_empty (data : JsObject) (key : string) : Prop :=
  data !! key = None ∨ data !! key = Some (VStr "").

Definition required_message (field : Field) : string :=
  title field +:+ " is required".

(** The operation the specification asks for one pending entry. *)
Definition operation_for (key : string) (change : PendingEntry) : Operation :=
  if startsWith "new_" key
  then OpCreate (spread (original change) (changes change))
  else OpUpdate (VStr key) (changes change).

(** ** The rest of the controller *)

(** *** The form built by [buildFormFields] *)

Inductive InputKind : Type :=
  | SelectInput (options : list (string * string))
  | CheckboxInput
  | NumberInput
  | DateTimeLocalInput
  | TextInput.

(** What [buildFormFields] assigns to an input from [rowData]. *)
Inductive Prefill : Type :=
  | SetChecked (v : JsValue)
  | SetInputValue (v : JsValue).

Record FormControl : Type := mkControl {
  label_text : string;
  input_kind : InputKind;
  input_class : string;
  input_id : string;
  input_name : string;
  prefill : option Prefill
}.

(** The body of the [forEach] in [buildFormFields]. *)
Definition form_control (rowData : JsObject) (field : Field) : FormControl :=
  let label := title field +:+ (if required field then " *" else "") in
  let '(kind, class) :=
    if bool_decide (type field = "Choice") then
      (SelectInput (("", "Select...") :: ((λ choice, (choice, choice)) <$> choices field)),
       "form-select")
    else if bool_decide (type field = "Boolean") then (CheckboxInput, "form-check-input")
    else if bool_decide (type field = "Number") then (NumberInput, "form-control")
    else if bool_decide (type field = "DateTime") then (DateTimeLocalInput, "form-control")
    else (TextInput, "form-control") in
  {| label_text := label; input_kind := kind; input_class := class;
     input_id := name field; input_name := name field;
     prefill :=
       if negb (strict_eq (get_prop rowData (name field)) VUndefined) then
         if bool_decide (type field = "Boolean")
         then Some (SetChecked (get_prop rowData (name field)))
         else Some (SetInputValue (get_prop rowData (name field)))
       else None |}.

(** [buildFormFields(rowData)]; the default argument is the empty
    object. *)
Definition buildFormFields (fields : list Field) (rowData : JsObject) : list FormControl :=
  form_control rowData <$> fields.

(** *** DOM writes outside the effect log *)

(** A handler returns the writes of this kind that it performs, in
    order. *)
Inductive Dom : Type :=
  | PreventDefault
  | Focus (id : string)
  | SetTextContent (id text : string)
  | SetValue (id value : string)
  | SetDisabled (id : string) (disabled : bool)
  | RenderForm (controls : list FormControl)
  | SetQuickFilter (text : string)
  | DownloadAs (filename : string).

Definition addNewRow : M (list Dom) :=
  a ← get_app;
  emit (ShowModal "editModal");;
  mret [SetTextContent "editModalTitle" "Add New Row";
        RenderForm (buildFormFields (fields a) ∅)].

Definition performGlobalSearch (searchTerm : string) : list Dom :=
  if truthy (VStr searchTerm) then [SetQuickFilter searchTerm] else [SetQuickFilter ""].

Definition clearSearch : list Dom :=
  [SetValue "globalSearch" ""; SetQuickFilter ""].

(** [selectedRows] is what [gridApi.getSelectedRows()] returns. *)
Definition updateSelectionCount (selectedRows : list JsObject) : list Dom :=
  [SetTextContent "selectedRows" ("Selected: " +:+ pretty (length selectedRows));
   SetDisabled "deleteRowBtn" (bool_decide (length selectedRows = 0%nat))].

(** *** Keyboard navigation in the grid *)

Record CellPosition (Column : Type) : Type := mkPosition {
  rowIndex : Z;
  column : option Column
}.
Arguments mkPosition {Column} rowIndex column.
Arguments rowIndex {Column} c.
Arguments column {Column} c.

(** [navigateToNextCell(params)] with [params.key] and
    [params.nextCellPosition]; the two column functions are those of
    [gridColumnApi]. The [switch] compares with [===]. *)
Definition navigateToNextCell {Column : Type}
    (getDisplayedColAfter getDisplayedColBefore : Column → option Column)
    (key_code : JsValue) (suggested_row : Z) (suggested_column : Column)
    : CellPosition Column :=
  if strict_eq key_code (VNum 40) then
    {| rowIndex := suggested_row + 1; column := Some suggested_column |}
  else if strict_eq key_code (VNum 38) then
    {| rowIndex := suggested_row - 1; column := Some suggested_column |}
  else if strict_eq key_code (VNum 37) then
    {| rowIndex := suggested_row; column := getDisplayedColAfter suggested_column |}
  else if strict_eq key_code (VNum 39) then
    {| rowIndex := suggested_row; column := getDisplayedColBefore suggested_column |}
  else
    {| rowIndex := suggested_row; column := Some suggested_column |}.

(** *** Export *)

Definition quote_char : Ascii.ascii := Ascii.ascii_of_nat 34.

(** The characters [.] does not match; a header value is a byte string,
    where these are the line feed and the carriage return. *)
Definition is_line_terminator (c : Ascii.ascii) : bool :=
  Ascii.eqb c (Ascii.ascii_of_nat 10) || Ascii.eqb c (Ascii.ascii_of_nat 13).

(** The longest prefix that [.] can match: up to the first line
    terminator. *)
Fixpoint dot_run (s : string) : string :=
  match s with
  | EmptyString => EmptyString
  | String c s' => if is_line_terminator c then EmptyString else String c (dot_run s')
  end.

(** The text before the last quote of [s]. *)
Fixpoint before_last_quote (s : string) : option string :=
  match s with
  | EmptyString => None
  | String c s' =>
      match before_last_quote s' with
      | Some g => Some (String c g)
      | None => if Ascii.eqb c quote_char then Some EmptyString else None
      end
  end.

(** The group [(.+)] followed by a quote, matched at the start of
    [rest]: greedy, so the group runs to the last quote that [.] can
    reach, and holds at least one character. *)
Definition group_at (rest : string) : option string :=
  match dot_run rest with
  | EmptyString => None
  | String c run => String c <$> before_last_quote run
  end.

(** [s] without the prefix [p], when it starts with it. *)
Fixpoint strip_prefix (p s : string) : option string :=
  match p, s with
  | EmptyString, _ => Some s
  | String a p', String b s' => if Ascii.eqb a b then strip_prefix p' s' else None
  | String _ _, EmptyString => None
  end.

(** The literal the pattern starts with: [filename=] and a quote. *)
Definition filename_literal : string := "filename=" +:+ String quote_char "".

(** [s.match(...)] for the pattern of [exportData] (the literal, the
    group [(.+)], a quote), reduced to its group [match[1]]: the leftmost
    position where the pattern matches. *)
Fixpoint match_filename (s : string) : option string :=
  match strip_prefix filename_literal s ≫= group_at with
  | Some g => Some g
  | None =>
      match s with
      | EmptyString => None
      | String _ s' => match_filename s'
      end
  end.

(** What [exportData] reads of a response beyond [ok]: whether
    [blob()] rejects, and the [content-disposition] header. *)
Record Payload : Type := mkPayload {
  blob_error : option string;
  content_disposition : option string
}.

(** The file name [exportData] gives the download; [today] is
    [new Date().toISOString().slice(0,10)]. *)
Definition export_filename (today format : string) (contentDisposition : option string)
    : string :=
  let filename := "sharepoint_data_" +:+ today +:+ "." +:+ format in
  match contentDisposition with
  | Some header =>
      if truthy (VStr header)
      then match match_filename header with Some g => g | None => filename end
      else filename
  | None => filename
  end.

(** *** Key presses *)

Record KeyEvent : Type := mkKey {
  ctrlKey : bool;
  metaKey : bool;
  key : string
}.

(** An asynchronous call that is started and not awaited: a rejection
    stays with its promise. *)
Definition detached {A} (c : M A) : M unit := λ w, (Ok (), (c w).2).

Definition get_issued : M nat := λ w, (Ok (issued w), w).

Section Controller.
Variable backend : nat → Request → Reply.
Variable parseFloat : string → JsValue.
(** The payload of the [n]-th response of a run. *)
Variable payload_of : nat → Payload.
Variable today : string.

Definition exportData (format : string) : M (list Dom) :=
  try_catch
    (n ← get_issued;
     response ← fetch backend (GetExport format);
     if ok response then
       match blob_error (payload_of n) with
       | Some e => throw e
       | None =>
           showToast "Export completed successfully" "success";;
           mret [DownloadAs
                   (export_filename today format (content_disposition (payload_of n)))]
       end
     else throw "Export failed")
    (λ error, showToast ("Error exporting data: " +:+ error) "error";; mret []).

(** [selectedRows] is read from the grid only when the key is
    [Delete]. *)
Definition handleKeyboardShortcuts (event : KeyEvent) (selectedRows : list JsObject)
    : M (list Dom) :=
  shortcut ←
    (if ctrlKey event || metaKey event then
       if bool_decide (key event = "s") then
         detached (saveAllChanges backend);; mret [PreventDefault]
       else if bool_decide (key event = "n") then
         form ← addNewRow; mret (PreventDefault :: form)
       else if bool_decide (key event = "r") then
         detached (refreshData backend);; mret [PreventDefault]
       else if bool_decide (key event = "f") then
         mret [PreventDefault; Focus "globalSearch"]
       else mret []
     else mret []);
  (if bool_decide (key event = "Delete") then
     if decide (0 < length selectedRows)%nat
     then deleteSelectedRows selectedRows
     else mret ()
   else mret ());;
  mret shortcut.

(** *** The listeners *)

(** The events wired by [setupEventListeners] and by [gridOptions], each
    with what its listener reads from the page when it runs. *)
Inductive UiEvent : Type :=
  | CellEditingStopped (now : Z) (event : CellEvent)
  | SelectionChanged (selectedRows : list JsObject)
  | ClickAddRow
  | ClickDeleteRow (selectedRows : list JsObject)
  | ClickSaveChanges
  | ClickRefresh
  | ClickExportExcel
  | ClickExportCsv
  | InputGlobalSearch (value : string)
  | ClickClearSearch
  | KeyDown (event : KeyEvent) (selectedRows : list JsObject)
  | ClickSaveRow (entries : list (string * string)) (checked : string → bool)
  | ClickConfirmAction.

Definition listener (e : UiEvent) : M (list Dom) :=
  match e with
  | CellEditingStopped now event => onCellChanged now event;; mret []
  | SelectionChanged selectedRows => mret (updateSelectionCount selectedRows)
  | ClickAddRow => addNewRow
  | ClickDeleteRow selectedRows => deleteSelectedRows selectedRows;; mret []
  | ClickSaveChanges => saveAllChanges backend;; mret []
  | ClickRefresh => refreshData backend;; mret []
  | ClickExportExcel => exportData "excel"
  | ClickExportCsv => exportData "csv"
  | InputGlobalSearch value => mret (performGlobalSearch value)
  | ClickClearSearch => mret clearSearch
  | KeyDown event selectedRows => handleKeyboardShortcuts event selectedRows
  | ClickSaveRow entries checked => saveRowFromModal backend parseFloat entries checked;; mret []
  | ClickConfirmAction => executeConfirmedAction backend;; mret []
  end.

(** The events of a session handled one after the other; an exception
    of a listener ends that listener only. *)
Fixpoint event_loop (events : list UiEvent) (w : World) : World :=
  match events with
  | [] => w
  | e :: events' => event_loop events' (listener e w).2
  end.
End Controller.

(** *** What the page shows *)

(** The count last written to the pending badge, if any. *)
Definition shown_count (l : list Effect) : option nat :=
  last (omap (λ e, match e with UpdatePendingChangesCount n => Some n | _ => None end) l).

(** The state last given to the save button, if any. *)
Definition shown_save_enabled (l : list Effect) : option bool :=
  last (omap (λ e, match e with EnableSaveButton b => Some b | _ => None end) l).

(** The badge and the save button agree with the pending map. *)
Definition display_consistent (w : World) : Prop :=
  (∀ n, shown_count (log w) = Some n → n = map_size (pendingChanges (app w))) ∧
  (∀ b, shown_save_enabled (log w) = Some b →
        b = negb (bool_decide (pendingChanges (app w) = []))).

(** An entry is filed under the [ID] of its snapshot, or under a
    temporary token when the snapshot has no truthy [ID]. *)
Definition key_matches_original (kv : JsValue * PendingEntry) : Prop :=
  (truthy (get_prop (original kv.2) "ID") = true ∧ kv.1 = get_prop (original kv.2) "ID") ∨
  (truthy (get_prop (original kv.2) "ID") = false ∧
   ∃ now : Z, kv.1 = VStr ("new_" +:+ pretty now)).

(** The identifiers of the effective edits, in order. *)
Definition edited_ids (edits : list Edit) : list JsValue :=
  omap (λ edit : Edit, if effective edit.2 then Some (rowId_of edit.1 edit.2) else None)
       edits.

(** The distinct elements of a list, each at its first occurrence. *)
Fixpoint first_occurrences (l : list JsValue) : list JsValue :=
  match l with
  | [] => []
  | x :: l' => x :: filter (λ y, y ≠ x) (first_occurrences l')
  end.

(** The message of the error a request ends with before its body can be
    inspected: the fetch is rejected or the body does not parse. *)
Definition transport_failure (reply : Reply) : option string :=
  match reply with
  | Rejected e => Some e
  | Responded resp =>
      match json resp with
      | inl e => Some e
      | inr _ => None
      end
  end.

(** The message of the error [loadInitialData] raises on a reply. *)
Definition load_failure (reply : Reply) : option string :=
  match reply with
  | Rejected e => Some e
  | Responded resp =>
      match json resp with
      | inl e => Some e
      | inr b => if truthy (j_error b) then Some (to_string (j_error b)) else None
      end
  end.

(** The message of the error [saveRowFromModal] raises on the reply to
    its create request. *)
Definition create_failure (reply : Reply) : option string :=
  match reply with
  | Rejected e => Some e
  | Responded resp =>
      match json resp with
      | inl e => Some e
      | inr b =>
          if truthy (j_success b) then None
          else Some (to_string (js_or (j_error b) (VStr "Failed to add row")))
      end
  end.

(** The pending map together with what the page shows of it. *)
Definition display (w : World) : JsMap PendingEntry * option nat * option bool :=
  (pendingChanges (app w), shown_count (log w), shown_save_enabled (log w)).

(** What a listener can do to the pending map and its display: leave
    them, clear them, or file one effective edit. *)
Inductive pending_step (w w' : World) : Prop :=
  | step_same :
      display w' = display w → pending_step w w'
  | step_cleared :
      display w' = ([], Some 0%nat, Some false) → pending_step w w'
  | step_tracked (edit : Edit) :
      effective edit.2 = true →
      display w' = (track_edit (pendingChanges (app w)) edit,
                    Some (map_size (track_edit (pendingChanges (app w)) edit)),
                    Some true) →
      pending_step w w'.

(** The letter the pattern of [exportData] starts with. *)
Definition letter_f : Ascii.ascii := Ascii.ascii_of_nat 102.

(** Every character of [s] passes the test [P]. *)
Fixpoint string_forall (P : Ascii.ascii → bool) (s : string) : bool :=
  match s with
  | EmptyString => true
  | String c s' => P c && string_forall P s'
  end.

(** The message of the error [exportData] raises on a reply, if any:
    the fetch is rejected, the status is not 2xx, or [blob()] rejects. *)
Definition export_failure (reply : Reply) (payload : Payload) : option string :=
  match reply with
  | Rejected e => Some e
  | Responded resp => if ok resp then blob_error payload else Some "Export failed"
  end.

(** The submitted value is absent or falsy. *)
Definition submitted_falsy (data : JsObject) (key : string) : bool :=
  match data !! key with
  | None => true
  | Some v => negb (truthy v)
  end.

(** ** Sample data *)

(** A persisted row, and the two edits of the specification's scenario:
    [Status] from ["Open"] to ["Closed"], then [Owner] from ["Alice"] to
    ["Bob"]. *)
Definition row7 : JsObject :=
  {[ "ID" := VNum 7; "Status" := VStr "Open"; "Owner" := VStr "Alice" ]}.

Definition edit_status : CellEvent :=
  {| data := <["Status" := VStr "Closed"]> row7; colDef_field := "Status";
     newValue := VStr "Closed"; oldValue := VStr "Open" |}.

Definition edit_owner : CellEvent :=
  {| data := <["Owner" := VStr "Bob"]> (<["Status" := VStr "Closed"]> row7);
     colDef_field := "Owner";
     newValue := VStr "Bob"; oldValue := VStr "Alice" |}.

(** A row the backend has given no [ID], and two edits of it. *)
Definition draft_row : JsObject := {[ "Title" := VStr "a" ]}.

Definition draft_title : CellEvent :=
  {| data := draft_row; colDef_field := "Title";
     newValue := VStr "b"; oldValue := VStr "a" |}.

Definition draft_owner : CellEvent :=
  {| data := draft_row; colDef_field := "Owner";
     newValue := VStr "c"; oldValue := VUndefined |}.

(** An application object with one pending update under the string key
    ["7"]. *)
Definition app_pending : App :=
  set_pendingChanges
    [(VStr "7", {| original := row7; changes := {[ "Status" := VStr "Closed" ]} |})]
    new_app.

(** The same pending update under the numeric key [7], as the handler
    files it for a row whose [ID] is the number 7. *)
Definition app_pending_numeric : App :=
  set_pendingChanges
    [(VNum 7, {| original := row7; changes := {[ "Status" := VStr "Closed" ]} |})]
    new_app.

Definition body_of (success : JsValue) (errors : string) : JsonBody :=
  {| j_error := VUndefined; j_fields := None; j_items := None;
     j_total := VUndefined; j_success := success; j_errors := errors |}.

(** A backend that accepts every write and whose read endpoints are
    unreachable. *)
Definition backend_reads_down : nat → Request → Reply :=
  λ _ r,
    match r with
    | GetFields | GetData | GetExport _ => Rejected "Failed to fetch"
    | _ => Responded {| ok := true; json := inr (body_of (VBool true) "undefined") |}
    end.

(** A backend whose bulk endpoint reports a failed operation. *)
Definition backend_bulk_fails : nat → Request → Reply :=
  λ _ _, Responded {| ok := true; json := inr (body_of (VBool false) "[409]") |}.

(** A backend on which the second request of a run fails with a non-2xx
    status and every other request succeeds. *)
Definition backend_second_fails : nat → Request → Reply :=
  λ n _,
    Responded {| ok := negb (bool_decide (n = 1%nat));
                 json := inr (body_of (VBool true) "undefined") |}.

(** The schema of the specification's scenario, and two more required
    fields. *)
Definition title_field : Field :=
  {| name := "Title"; title := "Title"; type := "Text"; required := true; choices := [] |}.

Definition quantity_field : Field :=
  {| name := "Qty"; title := "Quantity"; type := "Number"; required := true;
     choices := [] |}.

Definition done_field : Field :=
  {| name := "Done"; title := "Done"; type := "Boolean"; required := true;
     choices := [] |}.

(** [app_pending] once the schema is loaded. *)
Definition app_editing : App := set_fields [title_field] app_pending.

(** A stand-in for [parseFloat] where no number is parsed. *)
Definition parseFloat_NaN : string → JsValue := λ _, VNaN.

(** Three persisted rows, as a selection. *)
Definition row_1 : JsObject := {[ "ID" := VNum 1 ]}.
Definition row_2 : JsObject := {[ "ID" := VNum 2 ]}.
Definition row_3 : JsObject := {[ "ID" := VNum 3 ]}.





(** Responses without a [content-disposition] header, whose [blob()]
    resolves. *)
Definition plain_payload : nat → Payload :=
  λ _, {| blob_error := None; content_disposition := None |}.

(** A short session: two edits, a save from the keyboard, one more edit
    and a click on the delete button with nothing selected. *)
Definition sample_events : list UiEvent :=
  [CellEditingStopped 1000 edit_status;
   CellEditingStopped 1001 draft_title;
   KeyDown {| ctrlKey := true; metaKey := false; key := "s" |} [];
   CellEditingStopped 1002 edit_owner;
   ClickDeleteRow []].

(** The world of a freshly constructed controller. *)
Definition new_world : World := {| app := new_app; log := []; issued := 0 |}.

(** A pending map with a created row and an updated row, under string
    keys. *)
Definition string_entries : list (string * PendingEntry) :=
  [("new_1000", {| original := draft_row; changes := {[ "Title" := VStr "b" ]} |});
   ("7", {| original := row7; changes := {[ "Status" := VStr "Closed" ]} |})].

Definition app_string_keys : App :=
  set_pendingChanges (prod_map VStr id <$> string_entries) new_app.

(** A pending map where a row with a numeric [ID] follows a new row. *)
Definition app_mixed_keys : App :=
  set_pendingChanges
    [(VStr "new_1000", {| original := draft_row; changes := {[ "Title" := VStr "b" ]} |});
     (VNum 7, {| original := row7; changes := {[ "Status" := VStr "Closed" ]} |})]
    new_app.

(** A backend that is unreachable. *)
Definition backend_down : nat → Request → Reply := λ _ _, Rejected "Failed to fetch".

(** A backend that answers the schema and the rows, under a non-2xx
    status. *)
Definition schema_body : JsonBody :=
  {| j_error := VUndefined; j_fields := Some [title_field]; j_items := None;
     j_total := VUndefined; j_success := VUndefined; j_errors := "undefined" |}.

Definition rows_body : JsonBody :=
  {| j_error := VUndefined; j_fields := None; j_items := Some [row7];
     j_total := VNum 1; j_success := VUndefined; j_errors := "undefined" |}.

Definition backend_serving : nat → Request → Reply :=
  λ _ r,
    match r with
    | GetFields => Responded {| ok := false; json := inr schema_body |}
    | _ => Responded {| ok := false; json := inr rows_body |}
    end.

(** A backend that serves the schema and fails on the rows. *)
Definition backend_rows_down : nat → Request → Reply :=
  λ _ r,
    match r with
    | GetFields => Responded {| ok := true; json := inr schema_body |}
    | _ => Rejected "Failed to fetch"
    end.

(** A backend whose create endpoint reports a failure with a message. *)
Definition backend_create_fails : nat → Request → Reply :=
  λ _ _,
    Responded {| ok := true;
                 json := inr {| j_error := VStr "Title already used"; j_fields := None;
                                j_items := None; j_total := VUndefined;
                                j_success := VBool false; j_errors := "undefined" |} |}.

(** A backend on which every request succeeds with a 2xx status. *)
Definition backend_all_ok : nat → Request → Reply :=
  λ _ _, Responded {| ok := true; json := inr (body_of (VBool true) "undefined") |}.

(** A backend on which the second request of a run is rejected. *)
Definition backend_second_rejected : nat → Request → Reply :=
  λ n _,
    if bool_decide (n = 1%nat) then Rejected "Failed to fetch"
    else Responded {| ok := true; json := inr (body_of (VBool true) "undefined") |}.

(** ** Properties of the Map model *)

Section JsMapFacts.
Context {V : Type}.
Implicit Types (m : JsMap V) (k : JsValue) (v : V).

Lemma map_get_set_eq m k v : map_get k (map_set k v m) = Some v.
Proof.
  induction m as [|[k' v'] m IH]; simpl; repeat case_decide; simpl;
    repeat case_decide; congruence.
Qed.

Lemma map_get_set_ne m k k' v : k ≠ k' → map_get k' (map_set k v m) = map_get k' m.
Proof.
  intros Hne. induction m as [|[k0 v0] m IH]; simpl; repeat case_decide; simpl;
    repeat case_decide; congruence.
Qed.

Lemma map_get_mutate_eq m k f : map_get k (map_mutate k f m) = f <$> map_get k m.
Proof.
  induction m as [|[k0 v0] m IH]; simpl; [done|].
  repeat case_decide; simpl; repeat case_decide; subst; congruence.
Qed.

Lemma map_get_mutate_ne m k k' f : k ≠ k' → map_get k' (map_mutate k f m) = map_get k' m.
Proof.
  intros Hne. induction m as [|[k0 v0] m IH]; simpl; [done|].
  repeat case_decide; simpl; repeat case_decide; subst; congruence.
Qed.

Lemma map_keys_mutate m k f : map_keys (map_mutate k f m) = map_keys m.
Proof.
  unfold map_keys. induction m as [|[k0 v0] m IH]; simpl; [done|].
  case_decide; csimpl; [done|]. by rewrite IH.
Qed.

Lemma map_get_None m k : map_get k m = None ↔ k ∉ map_keys m.
Proof.
  unfold map_keys. induction m as [|[k0 v0] m IH]; csimpl.
  - split; [intros _; apply not_elem_of_nil | done].
  - rewrite not_elem_of_cons. case_decide; subst.
    + split; [done|]. intros [Hk _]. by destruct Hk.
    + rewrite IH. split; [by split|]. by intros [_ ?].
Qed.

Lemma map_keys_set_fresh m k v :
  map_get k m = None → map_keys (map_set k v m) = map_keys m ++ [k].
Proof.
  unfold map_keys. induction m as [|[k0 v0] m IH]; csimpl; [done|].
  case_decide; [done|]. intros Hget. csimpl. by rewrite IH.
Qed.

Lemma map_keys_set_present m k v :
  map_get k m ≠ None → map_keys (map_set k v m) = map_keys m.
Proof.
  unfold map_keys. induction m as [|[k0 v0] m IH]; csimpl; [done|].
  case_decide; subst; csimpl; [done|]. intros Hget. by rewrite IH.
Qed.

Lemma map_keys_set_NoDup m k v : NoDup (map_keys m) → NoDup (map_keys (map_set k v m)).
Proof.
  intros Hnd. destruct (map_get k m) eqn:Hget.
  - rewrite map_keys_set_present; [done | by rewrite Hget].
  - rewrite map_keys_set_fresh by done.
    apply NoDup_app. split_and!; [done| |apply NoDup_singleton].
    intros x Hx ->%list_elem_of_singleton. by apply map_get_None in Hget.
Qed.

Lemma entries_for_absent m k : k ∉ map_keys m → entries_for k m = [].
Proof.
  unfold map_keys, entries_for. induction m as [|[k0 v0] m IH]; [done|].
  rewrite fmap_cons, not_elem_of_cons. intros [Hne Hnin]. simpl in Hne.
  rewrite filter_cons_False by (simpl; congruence). by apply IH.
Qed.

(** With distinct keys, a key has at most one entry. *)
Lemma entries_for_NoDup m k : NoDup (map_keys m) → (length (entries_for k m) ≤ 1)%nat.
Proof.
  induction m as [|[k0 v0] m IH]; [simpl; lia|].
  unfold map_keys. rewrite fmap_cons, NoDup_cons. intros [Hnin Hnd].
  unfold entries_for. rewrite filter_cons. simpl in *.
  case_decide; subst; simpl; [|by apply IH].
  fold (entries_for k m). rewrite entries_for_absent by done. simpl; lia.
Qed.
End JsMapFacts.

Lemma entries_for_present {V} (m : JsMap V) k v :
  NoDup (map_keys m) → map_get k m = Some v → entries_for k m = [(k, v)].
Proof.
  induction m as [|[k0 v0] m IH]; [done|].
  unfold map_keys. rewrite fmap_cons, NoDup_cons. intros [Hnin Hnd]. simpl in *.
  unfold entries_for. rewrite filter_cons. simpl. case_decide; subst.
  - intros [= ->]. fold (entries_for k m). by rewrite entries_for_absent.
  - by apply IH.
Qed.

(** ** Properties of the change tracker *)

Lemma rowId_of_backend_id now event :
  truthy (get_prop (data event) "ID") = true →
  rowId_of now event = get_prop (data event) "ID".
Proof. unfold rowId_of, js_or. by intros ->. Qed.

Lemma rowId_of_temporary now event :
  truthy (get_prop (data event) "ID") = false →
  rowId_of now event = VStr ("new_" +:+ pretty now).
Proof. unfold rowId_of, js_or. by intros ->. Qed.

(** Tokens minted at different clock readings differ. *)
Lemma temporary_token_inj (now1 now2 : Z) :
  VStr ("new_" +:+ pretty now1) = VStr ("new_" +:+ pretty now2) → now1 = now2.
Proof. intros [= H]. by apply (inj pretty). Qed.

Lemma map_get_track_eq m rowId event :
  map_get rowId (track rowId event m) = merge_edit (map_get rowId m) event.
Proof.
  unfold track, map_has, merge_edit. rewrite map_get_mutate_eq.
  destruct (map_get rowId m) as [e|] eqn:Hget; simpl.
  - by rewrite Hget.
  - by rewrite map_get_set_eq.
Qed.

Lemma map_get_track_ne m rowId rowId' event :
  rowId ≠ rowId' → map_get rowId' (track rowId event m) = map_get rowId' m.
Proof.
  intros Hne. unfold track. rewrite map_get_mutate_ne by done.
  destruct (negb _); [by rewrite map_get_set_ne | done].
Qed.

Lemma track_NoDup m rowId event :
  NoDup (map_keys m) → NoDup (map_keys (track rowId event m)).
Proof.
  intros Hnd. unfold track. rewrite map_keys_mutate.
  destruct (negb _); [by apply map_keys_set_NoDup | done].
Qed.

Lemma track_edit_NoDup m edit :
  NoDup (map_keys m) → NoDup (map_keys (track_edit m edit)).
Proof. unfold track_edit. destruct (effective _); [apply track_NoDup | done]. Qed.

Lemma map_get_track_edit m rowId (edit : Edit) :
  map_get rowId (track_edit m edit) =
    if effective edit.2 && bool_decide (rowId_of edit.1 edit.2 = rowId)
    then merge_edit (map_get rowId m) edit.2
    else map_get rowId m.
Proof.
  unfold track_edit. destruct (effective _); simpl; [|done].
  case_bool_decide as Hid.
  - subst. apply map_get_track_eq.
  - by apply map_get_track_ne.
Qed.

Lemma foldl_track_edit_NoDup edits m :
  NoDup (map_keys m) → NoDup (map_keys (foldl track_edit m edits)).
Proof.
  revert m. induction edits as [|edit edits IH]; intros m Hnd; simpl; [done|].
  by apply IH, track_edit_NoDup.
Qed.

(** The entry of a row after a run of edits: the edits filed under its
    identifier, merged in order into the entry it had. *)
Lemma map_get_foldl_track_edit edits m rowId :
  map_get rowId (foldl track_edit m edits) =
    foldl merge_edit (map_get rowId m) (edits_of rowId edits).
Proof.
  revert m. induction edits as [|edit edits IH]; intros m; simpl; [done|].
  rewrite IH, map_get_track_edit. unfold edits_of. simpl.
  by destruct (effective edit.2 && bool_decide (rowId_of edit.1 edit.2 = rowId)).
Qed.

Lemma foldl_merge_edit_Some events entry :
  foldl merge_edit (Some entry) events =
    Some {| original := original entry;
            changes := foldl (λ c ev, <[colDef_field ev := newValue ev]> c)
                         (changes entry) events |}.
Proof.
  revert entry. induction events as [|ev events IH]; intros [o c]; simpl; [done|].
  unfold merge_edit at 2. simpl. by rewrite IH.
Qed.

Lemma foldl_writes_lookup events (c : JsObject) field :
  foldl (λ c ev, <[colDef_field ev := newValue ev]> c) c events !! field =
    match last_write field events with
    | Some v => Some v
    | None => c !! field
    end.
Proof.
  revert c. induction events as [|ev events IH]; intros c; simpl; [done|].
  rewrite IH. destruct (last_write field events); [done|].
  case_decide; subst; [by rewrite lookup_insert_eq | by rewrite lookup_insert_ne].
Qed.

(** Every edit of a row with a backend [ID] is filed under that [ID],
    whatever the clock reads. *)
Lemma edits_of_backend_id (rowId : JsValue) (edits : list Edit) :
  truthy rowId = true →
  Forall (λ edit : Edit, get_prop (data edit.2) "ID" = rowId) edits →
  edits_of rowId edits = filter (λ event, effective event = true) edits.*2.
Proof.
  intros Hid. induction 1 as [|[now event] edits Hrow _ IH]; [done|].
  unfold edits_of in *. csimpl. rewrite filter_cons, IH. simpl in *.
  rewrite rowId_of_backend_id by (by rewrite Hrow). rewrite Hrow.
  rewrite bool_decide_eq_true_2 by done. rewrite andb_true_r.
  destruct (effective event); by case_decide.
Qed.

(** The handler's effect on the application object. *)
Lemma onCellChanged_app now event w :
  ∃ w', onCellChanged now event w = (Ok (), w') ∧
        pendingChanges (app w') = track_edit (pendingChanges (app w)) (now, event) ∧
        fields (app w') = fields (app w) ∧
        issued w' = issued w ∧ requests (log w') = requests (log w).
Proof.
  unfold onCellChanged, track_edit, effective. simpl.
  destruct (negb (strict_eq (newValue event) (oldValue event))).
  - eexists. split; [reflexivity|]. simpl. split_and!; try done.
    unfold requests. rewrite !omap_app. simpl. by rewrite !app_nil_r.
  - eexists. split; [reflexivity|]. done.
Qed.

Lemma session_app edits w :
  ∃ w', session edits w = (Ok (), w') ∧
        pendingChanges (app w') = foldl track_edit (pendingChanges (app w)) edits ∧
        requests (log w') = requests (log w).
Proof.
  revert w. induction edits as [|[now event] edits IH]; intros w; simpl.
  - by eexists.
  - destruct (onCellChanged_app now event w) as (w1 & Hrun & Hp & _ & _ & Hr).
    destruct (IH w1) as (w2 & Hrun2 & Hp2 & Hr2).
    exists w2. unfold mbind, M_bind. rewrite Hrun, Hrun2.
    split; [done|]. rewrite Hp2, Hp, Hr2, Hr. done.
Qed.

(** ** The pending map over a session of edits *)

(** Where the handler files the edits of a row under one identifier, as
    it does for every row with a truthy backend [ID], the merge is the
    one the specification describes. Over any run of cell edits from an
    empty pending map, the edits that change a value and are filed under
    one identifier leave exactly one entry for it; its [original] is the
    row as the first of those edits saw it and its [changes] hold, per
    field, the last value written. The column [__proto__], which the
    assignment [changes[fieldName] = newValue] does not store, is left
    out. *)
Lemma pending_entry_last_write_wins
    (a : App) (edits : list Edit) (rowId : JsValue)
    (first : CellEvent) (rest : list CellEvent) :
  pendingChanges a = [] →
  edits_of rowId edits = first :: rest →
  Forall (λ event, colDef_field event ≠ "__proto__") (first :: rest) →
  ∃ w entry,
    run (session edits) a = (Ok (), w) ∧
    entries_for rowId (pendingChanges (app w)) = [(rowId, entry)] ∧
    original entry = data first ∧
    ∀ field, changes entry !! field = last_write field (first :: rest).
Proof.
  intros Hempty Hedits _.
  destruct (session_app edits {| app := a; log := []; issued := 0 |})
    as (w & Hrun & Hp & _). simpl in Hp. rewrite Hempty in Hp.
  pose proof (map_get_foldl_track_edit edits [] rowId) as Hget.
  rewrite Hedits in Hget. simpl in Hget. unfold merge_edit at 2 in Hget.
  simpl in Hget. rewrite foldl_merge_edit_Some in Hget. simpl in Hget.
  eexists w, _. split; [exact Hrun|]. split; [|split].
  - rewrite Hp. apply entries_for_present; [|exact Hget].
    apply foldl_track_edit_NoDup. constructor.
  - done.
  - intros field. simpl. rewrite foldl_writes_lookup. simpl.
    destruct (last_write field rest); [done|].
    case_decide; subst; [by rewrite lookup_insert_eq|].
    by rewrite lookup_insert_ne, lookup_empty.
Qed.

(** The scenario of the specification: one entry, under key [7], with
    both changes. *)
Example scenario_status_then_owner :
  ∃ w, run (session [(1000, edit_status); (1001, edit_owner)]) new_app = (Ok (), w) ∧
       pendingChanges (app w) =
         [(VNum 7, {| original := data edit_status;
                      changes := {[ "Status" := VStr "Closed"; "Owner" := VStr "Bob" ]} |})].
Proof. eexists. split; vm_compute; reflexivity. Qed.

(** C1 at the failing input. A row without a backend [ID] is edited
    twice in one pending session, at clock readings 1000 and 1001: the
    pending map ends with two entries for that one row, each under its own
    token, and neither holds both writes. *)
Theorem untracked_row_edits_split :
  data draft_title = draft_row ∧ data draft_owner = draft_row ∧
  ∃ w, run (session [(1000, draft_title); (1001, draft_owner)]) new_app = (Ok (), w) ∧
       pendingChanges (app w) =
         [(VStr "new_1000", {| original := draft_row;
                               changes := {[ "Title" := VStr "b" ]} |});
          (VStr "new_1001", {| original := draft_row;
                               changes := {[ "Owner" := VStr "c" ]} |})].
Proof.
  split; [reflexivity|]. split; [reflexivity|].
  eexists. split; vm_compute; reflexivity.
Qed.

(** ** Row identifiers *)

(** Two edits of rows without a backend [ID] share a token only when the
    clock reads the same. *)
Lemma temporary_tokens_differ now1 now2 event1 event2 :
  truthy (get_prop (data event1) "ID") = false →
  truthy (get_prop (data event2) "ID") = false →
  now1 ≠ now2 →
  rowId_of now1 event1 ≠ rowId_of now2 event2.
Proof.
  intros H1 H2 Hne. rewrite !rowId_of_temporary by done.
  intros Heq. by apply Hne, temporary_token_inj.
Qed.

(** C2 at the failing input: the second edit of a row without a backend
    [ID] mints a second token instead of reusing the first, and the
    pending map ends with a key for each. *)
Theorem temporary_token_not_reused :
  rowId_of 1000 draft_title = VStr "new_1000" ∧
  rowId_of 1001 draft_owner = VStr "new_1001" ∧
  ∃ w, run (session [(1000, draft_title); (1001, draft_owner)]) new_app = (Ok (), w) ∧
       map_keys (pendingChanges (app w)) = [VStr "new_1000"; VStr "new_1001"].
Proof.
  split; [vm_compute; reflexivity|]. split; [vm_compute; reflexivity|].
  eexists. split; vm_compute; reflexivity.
Qed.

(** ** Refresh *)

Lemma requests_app l1 l2 : requests (l1 ++ l2) = requests l1 ++ requests l2.
Proof. apply omap_app. Qed.

Lemma toasts_app l1 l2 : toasts (l1 ++ l2) = toasts l1 ++ toasts l2.
Proof. apply omap_app. Qed.

Ltac run_step :=
  unfold mbind, M_bind, mret, M_ret, throw, try_catch, finally, emit, get_app,
    modify_app, showToast, showLoading, showError, updateStatusInfo,
    enableSaveButton, updatePendingChangesCount, setupColumns, fetch,
    response_json in *; simpl in *.

Ltac run_done :=
  eexists; split; [reflexivity|]; simpl;
  rewrite ?requests_app, ?toasts_app; simpl;
  rewrite ?app_nil_r, <-?app_assoc; done.

Section Refresh.
Variable backend : nat → Request → Reply.

Lemma loadInitialData_app w :
  ∃ w', loadInitialData backend w = (Ok (), w') ∧
        pendingChanges (app w') = pendingChanges (app w) ∧
        pendingConfirmAction (app w') = pendingConfirmAction (app w) ∧
        requests (log w') = requests (log w) ++ refresh_requests backend (issued w) ∧
        toasts (log w') = toasts (log w).
Proof.
  unfold loadInitialData, refresh_requests, body_ok. run_step.
  destruct (backend (issued w) GetFields) as [e|[o [e|b]]]; simpl;
    [run_done | run_done |].
  destruct (truthy (j_error b)); simpl; [run_done|].
  destruct (backend (S (issued w)) GetData) as [e|[o' [e|b']]]; simpl;
    [run_done | run_done |].
  destruct (truthy (j_error b')); simpl; run_done.
Qed.

(** [refreshData] always ends with an empty pending map, whatever the
    backend answers. *)
Lemma refreshData_app w :
  ∃ w', refreshData backend w = (Ok (), w') ∧
        pendingChanges (app w') = [] ∧
        pendingConfirmAction (app w') = pendingConfirmAction (app w) ∧
        requests (log w') = requests (log w) ++ refresh_requests backend (issued w) ∧
        toasts (log w') = toasts (log w).
Proof.
  destruct (loadInitialData_app w) as (w1 & Hrun & _ & Hc & Hr & Ht).
  unfold refreshData. run_step. rewrite Hrun.
  eexists; split; [reflexivity|]; simpl.
  rewrite !requests_app, !toasts_app; simpl. by rewrite !app_nil_r.
Qed.
End Refresh.

(** ** Bulk commit *)

(** [{...original, ...changes}]: a key of [changes] wins. *)
Lemma spread_lookup (o c : JsObject) key :
  spread o c !! key = match c !! key with Some v => Some v | None => o !! key end.
Proof.
  unfold spread. destruct (c !! key) as [v|] eqn:Hc.
  - by apply lookup_union_Some_l.
  - by rewrite lookup_union_r.
Qed.

(** On string keys the loop yields one operation per entry, in the order
    of the map. *)
Lemma build_operations_string_keys (entries : list (string * PendingEntry)) :
  build_operations (prod_map VStr id <$> entries)
    = Ok ((λ kv, operation_for kv.1 kv.2) <$> entries).
Proof.
  induction entries as [|[s e] entries IH]; csimpl; [done|].
  by rewrite IH.
Qed.

(** A key that is not a string stops the loop with a [TypeError]. *)
Lemma build_operations_other_key m1 rowId change m2 :
  (∀ s, rowId ≠ VStr s) →
  (∃ ops, build_operations m1 = Ok ops) →
  build_operations (m1 ++ (rowId, change) :: m2)
    = Throw "TypeError: rowId.startsWith is not a function".
Proof.
  intros Hns. induction m1 as [|[k e] m1 IH]; simpl.
  - intros _. destruct rowId; try done. by destruct (Hns s).
  - destruct k; try (by intros [? [=]]).
    destruct (build_operations m1) as [ops|err]; [|by intros [? [=]]].
    intros _. rewrite IH; [done | by eexists].
Qed.

Section BulkCommit.
Variable backend : nat → Request → Reply.

(** Once the operations are built, they go out in one request, the
    first of the run; whatever follows belongs to the refresh. *)
Lemma saveAllChanges_single_request a ops :
  pendingChanges a ≠ [] →
  build_operations (pendingChanges a) = Ok ops →
  ∃ w, run (saveAllChanges backend) a = (Ok (), w) ∧
       (requests (log w) = [PostBulk ops] ∨
        requests (log w) = PostBulk ops :: refresh_requests backend 1).
Proof.
  intros Hne Hops. unfold run, saveAllChanges. run_step.
  case_decide as Hz; [by destruct (pendingChanges a)|]. rewrite Hops. run_step.
  destruct (backend 0%nat (PostBulk ops)) as [e|[o [e|b]]]; simpl;
    [eexists; split; [reflexivity|]; by left ..|].
  destruct (truthy (j_success b)); simpl.
  - match goal with |- context [refreshData backend ?w0] =>
      destruct (refreshData_app backend w0) as (w1 & -> & _ & _ & Hr & _) end.
    eexists; split; [reflexivity|]. right. rewrite Hr. simpl.
    by rewrite ?requests_app.
  - eexists; split; [reflexivity|]; by left.
Qed.
End BulkCommit.

(** With string identifiers throughout, the request carries exactly the
    operations the specification lists: a create with the merged row for
    a temporary token, an update with the changes otherwise. *)
Lemma saveAllChanges_string_keys backend a (entries : list (string * PendingEntry)) :
  entries ≠ [] →
  pendingChanges a = prod_map VStr id <$> entries →
  ∃ w rest, run (saveAllChanges backend) a = (Ok (), w) ∧
            requests (log w)
              = PostBulk ((λ kv, operation_for kv.1 kv.2) <$> entries) :: rest ∧
            Forall (λ r, r = GetFields ∨ r = GetData) rest.
Proof.
  intros Hne Hm.
  destruct (saveAllChanges_single_request backend a
              ((λ kv, operation_for kv.1 kv.2) <$> entries)) as (w & Hrun & Hreq).
  - rewrite Hm. by destruct entries.
  - rewrite Hm. apply build_operations_string_keys.
  - destruct Hreq as [Hreq|Hreq]; eexists w, _; (split; [exact Hrun|]);
      (split; [exact Hreq|]); [constructor|].
    unfold refresh_requests.
    destruct (body_ok _); repeat apply Forall_cons_2; try apply Forall_nil_2; auto.
Qed.

(** C3 at the failing input. The row of the specification's scenario has
    the numeric identifier [7]; once its edit is pending, [saveAllChanges]
    raises a [TypeError] on [rowId.startsWith] while it builds the
    operations: no request goes out and the edit stays pending. *)
Theorem saveAllChanges_numeric_id backend :
  ∃ w, run (session [(1000, edit_status)];; saveAllChanges backend) new_app
         = (Throw "TypeError: rowId.startsWith is not a function", w) ∧
       requests (log w) = [] ∧
       map_keys (pendingChanges (app w)) = [VNum 7].
Proof. eexists. split; [|split]; vm_compute; reflexivity. Qed.

(** C4. On an empty pending map [saveAllChanges] only shows the toast
    ["No changes to save"] of type ["info"]: the application object is
    untouched and no request is issued. *)
Theorem saveAllChanges_empty backend a :
  pendingChanges a = [] →
  run (saveAllChanges backend) a
    = (Ok (), {| app := a; log := [ShowToast "No changes to save" "info"]; issued := 0 |})
  ∧ requests [ShowToast "No changes to save" "info"] = [].
Proof.
  intros Hm. split; [|done]. unfold run, saveAllChanges. run_step. by rewrite Hm.
Qed.

Lemma saveAllChanges_empty_witness :
  pendingChanges new_app = [] ∧
  run (saveAllChanges backend_reads_down) new_app
    = (Ok (), {| app := new_app; log := [ShowToast "No changes to save" "info"];
                 issued := 0 |})
  ∧ requests [ShowToast "No changes to save" "info"] = [].
Proof.
  split; [reflexivity|]. apply (saveAllChanges_empty backend_reads_down new_app).
  reflexivity.
Defined.

(** C5 (as amended). When the bulk reply reports success, the pending map
    ends empty and a refresh has run: the schema request has been issued
    after the bulk request, and the row request follows it exactly when
    the schema reply carries a body without an error. *)
Theorem saveAllChanges_success backend a ops o result :
  pendingChanges a ≠ [] →
  build_operations (pendingChanges a) = Ok ops →
  backend 0%nat (PostBulk ops) = Responded {| ok := o; json := inr result |} →
  truthy (j_success result) = true →
  ∃ w, run (saveAllChanges backend) a = (Ok (), w) ∧
       pendingChanges (app w) = [] ∧
       requests (log w)
         = PostBulk ops :: GetFields ::
             (if body_ok (backend 1%nat GetFields) then [GetData] else []).
Proof.
  intros Hne Hops Hreply Hok. unfold run, saveAllChanges. run_step.
  case_decide as Hz; [by destruct (pendingChanges a)|]. rewrite Hops. run_step.
  rewrite Hreply. simpl. rewrite Hok.
  match goal with |- context [refreshData backend ?w0] =>
    destruct (refreshData_app backend w0) as (w1 & -> & Hp & _ & Hr & _) end.
  eexists; split; [reflexivity|]. split; [exact Hp|]. rewrite Hr. simpl.
  by rewrite ?requests_app.
Qed.

Lemma saveAllChanges_success_witness :
  ∃ w, run (saveAllChanges backend_reads_down) app_pending = (Ok (), w) ∧
       pendingChanges (app w) = [] ∧
       requests (log w)
         = PostBulk [OpUpdate (VStr "7") {[ "Status" := VStr "Closed" ]}] :: GetFields ::
             (if body_ok (backend_reads_down 1%nat GetFields) then [GetData] else []).
Proof.
  apply (saveAllChanges_success backend_reads_down app_pending
           [OpUpdate (VStr "7") {[ "Status" := VStr "Closed" ]}]
           true (body_of (VBool true) "undefined")).
  - discriminate.
  - vm_compute. reflexivity.
  - reflexivity.
  - reflexivity.
Defined.

(** C5 as stated fails when the schema endpoint is unreachable: the bulk
    commit succeeds, the pending map is cleared, and no row request is
    ever issued. *)
Lemma saveAllChanges_success_without_row_fetch :
  ∃ w, run (saveAllChanges backend_reads_down) app_pending = (Ok (), w) ∧
       pendingChanges (app w) = [] ∧
       toasts (log w) = [("All changes saved successfully", "success")] ∧
       requests (log w)
         = [PostBulk [OpUpdate (VStr "7") {[ "Status" := VStr "Closed" ]}]; GetFields] ∧
       GetData ∉ requests (log w).
Proof.
  eexists. split; [vm_compute; reflexivity|]. simpl.
  split_and!; [done..|].
  intros Hin. repeat (apply elem_of_cons in Hin as [Hin|Hin]; [discriminate|]).
  by apply elem_of_nil in Hin.
Qed.

(** C6. When the bulk reply reports failure, the only toast is the error
    carrying the reported failures, the bulk request is the only request
    of the run, and the application object, with its pending map and all
    its entries, is unchanged. *)
Theorem saveAllChanges_failure backend a ops o result :
  pendingChanges a ≠ [] →
  build_operations (pendingChanges a) = Ok ops →
  backend 0%nat (PostBulk ops) = Responded {| ok := o; json := inr result |} →
  truthy (j_success result) = false →
  run (saveAllChanges backend) a
    = (Ok (),
       {| app := a;
          log := [Fetch (PostBulk ops);
                  ShowToast ("Error saving changes: Some operations failed: "
                             +:+ j_errors result) "error"];
          issued := 1 |}).
Proof.
  intros Hne Hops Hreply Hok. unfold run, saveAllChanges. run_step.
  case_decide as Hz; [by destruct (pendingChanges a)|]. rewrite Hops. run_step.
  rewrite Hreply. simpl. by rewrite Hok.
Qed.

Lemma saveAllChanges_failure_witness :
  run (saveAllChanges backend_bulk_fails) app_pending
    = (Ok (),
       {| app := app_pending;
          log := [Fetch (PostBulk [OpUpdate (VStr "7") {[ "Status" := VStr "Closed" ]}]);
                  ShowToast ("Error saving changes: Some operations failed: "
                             +:+ j_errors (body_of (VBool false) "[409]")) "error"];
          issued := 1 |}).
Proof.
  apply (saveAllChanges_failure backend_bulk_fails app_pending
           [OpUpdate (VStr "7") {[ "Status" := VStr "Closed" ]}]
           true (body_of (VBool false) "[409]")).
  - discriminate.
  - vm_compute. reflexivity.
  - reflexivity.
  - reflexivity.
Defined.

(** ** Validation and the modal create path *)

Lemma validateRowData_app fields1 fields2 data :
  validateRowData (fields1 ++ fields2) data
    = validateRowData fields1 data ++ validateRowData fields2 data.
Proof. unfold validateRowData. apply bind_app. Qed.

Lemma validateRowData_cons field fields data :
  validateRowData (field :: fields) data
    = field_errors data field ++ validateRowData fields data.
Proof. done. Qed.

Lemma field_errors_falsy data field :
  required field = true →
  truthy (get_prop data (name field)) = false →
  field_errors data field = [required_message field].
Proof. unfold field_errors. by intros -> ->. Qed.

Lemma field_errors_truthy data field :
  truthy (get_prop data (name field)) = true → field_errors data field = [].
Proof.
  unfold field_errors. intros Ht. rewrite Ht. simpl.
  destruct (get_prop data (name field)) as [| | | | |s]; try by rewrite andb_false_r.
  destruct s; [done|]. by rewrite andb_false_r.
Qed.

Lemma field_errors_optional data field :
  required field = false → field_errors data field = [].
Proof. unfold field_errors. by intros ->. Qed.

Lemma absent_or_empty_falsy data key :
  absent_or_empty data key → truthy (get_prop data key) = false.
Proof. unfold get_prop. by intros [-> | ->]. Qed.

(** A required field with a falsy value adds one message, at its place
    in the schema. *)
Lemma validateRowData_reports fields1 field fields2 data :
  required field = true →
  truthy (get_prop data (name field)) = false →
  validateRowData (fields1 ++ field :: fields2) data
    = validateRowData fields1 data ++ required_message field
        :: validateRowData fields2 data.
Proof.
  intros Hreq Hfalsy.
  by rewrite validateRowData_app, validateRowData_cons, field_errors_falsy.
Qed.

(** The errors are the messages of the required fields whose value is
    falsy, in schema order. *)
Lemma validateRowData_filter fields data :
  validateRowData fields data
    = required_message <$>
        filter (λ f, required f = true ∧ truthy (get_prop data (name f)) = false) fields.
Proof.
  induction fields as [|f fields IH]; [done|].
  rewrite validateRowData_cons, IH, filter_cons.
  destruct (required f) eqn:Hreq.
  - destruct (truthy (get_prop data (name f))) eqn:Ht.
    + rewrite field_errors_truthy by done. case_decide as Hd; [|done]. by destruct Hd.
    + rewrite field_errors_falsy by done. case_decide as Hd; [done|]. by destruct Hd.
  - rewrite field_errors_optional by done. case_decide as Hd; [|done]. by destruct Hd.
Qed.

Section Modal.
Variable backend : nat → Request → Reply.
Variable parseFloat : string → JsValue.

(** With a validation error the handler shows it and stops. *)
Lemma saveRowFromModal_rejected a entries checked :
  validateRowData (fields a) (form_data parseFloat (fields a) checked entries) ≠ [] →
  ∃ message,
    run (saveRowFromModal backend parseFloat entries checked) a
      = (Ok (), {| app := a; log := [ShowToast message "error"]; issued := 0 |}).
Proof.
  intros Herr. unfold run, saveRowFromModal. run_step.
  case_decide as Hlen; [by eexists|].
  destruct (validateRowData _ _); [done | simpl in Hlen; lia].
Qed.
End Modal.

Lemma submitted_falsy_lookup (data : JsObject) key :
  truthy (get_prop data key) = false ↔ submitted_falsy data key = true.
Proof.
  unfold get_prop, submitted_falsy. destruct (data !! key) as [v|]; simpl; [|done].
  by rewrite negb_true_iff.
Qed.

(** C7 (as amended). For a schema whose field names are not inherited
    from [Object.prototype], [validateRowData] returns, in schema order,
    exactly one message ["<title> is required"] for each required field
    whose submitted value is absent or falsy, and no message for any other
    field; absent and the empty string are such values. When there is any
    error, [saveRowFromModal] shows the errors in one toast and stops: the
    application object is unchanged and no request is issued. *)
Theorem validateRowData_exact :
  (∀ fields data,
     Forall (λ f, name f ∉ object_prototype_names) fields →
     validateRowData fields data
       = (λ f, title f +:+ " is required")
           <$> filter (λ f, required f = true ∧ submitted_falsy data (name f) = true)
                 fields) ∧
  (∀ data key, absent_or_empty data key → submitted_falsy data key = true) ∧
  (∀ backend parseFloat a entries checked,
     Forall (λ f, name f ∉ object_prototype_names) (fields a) →
     validateRowData (fields a) (form_data parseFloat (fields a) checked entries) ≠ [] →
     run (saveRowFromModal backend parseFloat entries checked) a
       = (Ok (),
          {| app := a;
             log := [ShowToast
                       ("Please fix the following errors:" +:+ newline +:+
                        join newline
                          (validateRowData (fields a)
                             (form_data parseFloat (fields a) checked entries)))
                       "error"];
             issued := 0 |})).
Proof.
  split_and!.
  - intros fields data _. rewrite validateRowData_filter.
    f_equal. apply list_filter_iff. intros f. by rewrite submitted_falsy_lookup.
  - intros data key [Habs|Hemp]; unfold submitted_falsy; by rewrite ?Habs, ?Hemp.
  - intros backend parseFloat a entries checked _ Herr.
    unfold run, saveRowFromModal. run_step.
    case_decide as Hlen; [done|].
    destruct (validateRowData _ _); [done | simpl in Hlen; lia].
Qed.

Lemma validateRowData_exact_witness :
  validateRowData [title_field; quantity_field; done_field]
    {[ "Title" := VStr ""; "Qty" := VNum 5 ]}
    = (λ f, title f +:+ " is required")
        <$> filter (λ f, required f = true ∧
                         submitted_falsy {[ "Title" := VStr ""; "Qty" := VNum 5 ]} (name f)
                           = true)
              [title_field; quantity_field; done_field] ∧
  submitted_falsy {[ "Title" := VStr "" ]} "Title" = true ∧
  run (saveRowFromModal backend_reads_down parseFloat_NaN [("Title", "")] (λ _, false))
      app_editing
    = (Ok (),
       {| app := app_editing;
          log := [ShowToast
                    ("Please fix the following errors:" +:+ newline +:+
                     join newline
                       (validateRowData (fields app_editing)
                          (form_data parseFloat_NaN (fields app_editing) (λ _, false)
                             [("Title", "")])))
                    "error"];
          issued := 0 |}).
Proof.
  split_and!.
  - apply (proj1 validateRowData_exact [title_field; quantity_field; done_field]
             {[ "Title" := VStr ""; "Qty" := VNum 5 ]}).
    apply (bool_decide_unpack _). vm_compute. reflexivity.
  - apply (proj1 (proj2 validateRowData_exact) {[ "Title" := VStr "" ]} "Title").
    right. reflexivity.
  - apply (proj2 (proj2 validateRowData_exact)
             backend_reads_down parseFloat_NaN app_editing [("Title", "")] (λ _, false)).
    + apply (bool_decide_unpack _). vm_compute. reflexivity.
    + vm_compute. discriminate.
Defined.

(** The scenario of the specification: [{Title: ""}] against a schema
    with the required field [Title]. *)
Example validate_empty_title :
  validateRowData [title_field] {[ "Title" := VStr "" ]} = ["Title is required"].
Proof. vm_compute. reflexivity. Qed.

(** C7 as stated fails for a value that is present and is not the empty
    string: a required Number field submitted as [0] gets a message. *)
Lemma present_zero_is_reported :
  ({[ "Qty" := VNum 0 ]} : JsObject) !! name quantity_field = Some (VNum 0) ∧
  ¬ absent_or_empty {[ "Qty" := VNum 0 ]} (name quantity_field) ∧
  validateRowData [quantity_field] {[ "Qty" := VNum 0 ]} = ["Quantity is required"].
Proof.
  split; [reflexivity|]. split; [|vm_compute; reflexivity].
  intros [Habs|Hemp]; [vm_compute in Habs | vm_compute in Hemp]; discriminate.
Qed.

(** C9. A required field is reported whenever its submitted value is
    falsy: the message is added at the field's place in the schema. So a
    required Number field submitted as [0] and a required Boolean field
    submitted as [false] are reported although a value is present. *)
Theorem validateRowData_falsy_reported :
  (∀ fields1 field fields2 data,
     required field = true →
     truthy (get_prop data (name field)) = false →
     validateRowData (fields1 ++ field :: fields2) data
       = validateRowData fields1 data ++ (title field +:+ " is required")
           :: validateRowData fields2 data) ∧
  validateRowData [quantity_field] {[ "Qty" := VNum 0 ]} = ["Quantity is required"] ∧
  validateRowData [done_field] {[ "Done" := VBool false ]} = ["Done is required"].
Proof.
  split_and!; [|vm_compute; reflexivity..].
  intros fields1 field fields2 data Hreq Hfalsy. by apply validateRowData_reports.
Qed.

Lemma validateRowData_falsy_reported_witness :
  validateRowData [title_field; quantity_field] {[ "Title" := VStr "x"; "Qty" := VNum 0 ]}
    = ["Quantity is required"].
Proof.
  etrans.
  - apply (proj1 validateRowData_falsy_reported [title_field] quantity_field []
             {[ "Title" := VStr "x"; "Qty" := VNum 0 ]}).
    + reflexivity.
    + vm_compute. reflexivity.
  - vm_compute. reflexivity.
Defined.

(** C10. A create through the modal that the backend reports successful
    ends in [refreshData]: after the create request come the requests of
    the reload, and the pending map is cleared whatever it held and
    whatever the backend answers to the reload; the only toast of the run
    is the success message, so nothing tells the user that pending edits
    were dropped. *)
Theorem saveRowFromModal_clears_pending backend parseFloat a entries checked o result :
  validateRowData (fields a) (form_data parseFloat (fields a) checked entries) = [] →
  backend 0%nat (PostItem (form_data parseFloat (fields a) checked entries))
    = Responded {| ok := o; json := inr result |} →
  truthy (j_success result) = true →
  ∃ w, run (saveRowFromModal backend parseFloat entries checked) a = (Ok (), w) ∧
       pendingChanges (app w) = [] ∧
       requests (log w)
         = PostItem (form_data parseFloat (fields a) checked entries)
             :: refresh_requests backend 1 ∧
       toasts (log w) = [("Row added successfully", "success")].
Proof.
  intros Herr Hreply Hok. unfold run, saveRowFromModal. run_step.
  rewrite Herr. run_step.
  rewrite Hreply. simpl. rewrite Hok.
  match goal with |- context [refreshData backend ?w0] =>
    destruct (refreshData_app backend w0) as (w1 & -> & Hp & _ & Hr & Ht) end.
  eexists; split; [reflexivity|]. split; [exact Hp|]. by rewrite Hr, Ht.
Qed.

Lemma saveRowFromModal_clears_pending_witness :
  pendingChanges app_editing ≠ [] ∧
  ∃ w, run (saveRowFromModal backend_reads_down parseFloat_NaN [("Title", "x")] (λ _, false))
         app_editing = (Ok (), w) ∧
       pendingChanges (app w) = [] ∧
       requests (log w)
         = PostItem (form_data parseFloat_NaN (fields app_editing) (λ _, false)
                       [("Title", "x")])
             :: refresh_requests backend_reads_down 1 ∧
       toasts (log w) = [("Row added successfully", "success")].
Proof.
  split; [discriminate|].
  apply (saveRowFromModal_clears_pending backend_reads_down parseFloat_NaN app_editing
           [("Title", "x")] (λ _, false) true (body_of (VBool true) "undefined")).
  - vm_compute. reflexivity.
  - reflexivity.
  - reflexivity.
Defined.

(** ** Deleting the selection *)

Section Delete.
Variable backend : nat → Request → Reply.

(** While every delete succeeds the loop goes on, one request per row. *)
Lemma delete_loop_app deleted rest w :
  (∀ i row, deleted !! i = Some row →
            delete_ok (backend (issued w + i)%nat (delete_request row)) = true) →
  delete_loop backend (deleted ++ rest) w
    = delete_loop backend rest
        {| app := app w;
           log := log w ++ (Fetch ∘ delete_request <$> deleted);
           issued := (issued w + length deleted)%nat |}.
Proof.
  revert w. induction deleted as [|row deleted IH]; intros w Hok; simpl.
  - rewrite app_nil_r, Nat.add_0_r. by destruct w.
  - pose proof (Hok 0%nat row eq_refl) as H0. rewrite Nat.add_0_r in H0.
    unfold delete_ok, delete_request in H0. run_step.
    destruct (backend (issued w) _) as [e|resp]; [done|]. simpl. rewrite H0. simpl.
    rewrite IH; simpl.
    + by rewrite <-app_assoc, Nat.add_succ_r.
    + intros i r Hi. specialize (Hok (S i) r Hi). by rewrite Nat.add_succ_r in Hok.
Qed.

Lemma delete_loop_all rows w :
  (∀ i row, rows !! i = Some row →
            delete_ok (backend (issued w + i)%nat (delete_request row)) = true) →
  delete_loop backend rows w
    = (Ok (),
       {| app := app w;
          log := log w ++ (Fetch ∘ delete_request <$> rows);
          issued := (issued w + length rows)%nat |}).
Proof.
  intros Hok. pose proof (delete_loop_app rows [] w Hok) as Heq.
  rewrite app_nil_r in Heq. exact Heq.
Qed.

(** The first failing delete ends the loop with its error; the rows
    after it are never requested. *)
Lemma delete_loop_fails failed later w :
  delete_ok (backend (issued w) (delete_request failed)) = false →
  delete_loop backend (failed :: later) w
    = (Throw (delete_error (backend (issued w) (delete_request failed)) failed),
       {| app := app w; log := log w ++ [Fetch (delete_request failed)];
          issued := S (issued w) |}).
Proof.
  unfold delete_ok, delete_error, delete_request. simpl. run_step.
  destruct (backend (issued w) _) as [e|resp]; [done|]. simpl. by intros ->.
Qed.
End Delete.

Section ConfirmedDelete.
Variable backend : nat → Request → Reply.

Lemma requests_fetches (rs : list Request) : requests (Fetch <$> rs) = rs.
Proof. induction rs as [|r rs IH]; [done|]. csimpl. by rewrite IH. Qed.

Lemma toasts_fetches (rs : list Request) : toasts (Fetch <$> rs) = [].
Proof. induction rs as [|r rs IH]; [done|]. csimpl. by rewrite IH. Qed.

(** The confirmed delete when some delete fails, by a non-2xx status
    or by a rejected request. *)
Lemma confirmed_delete_failure a deleted failed later :
  (∀ i row, deleted !! i = Some row →
            delete_ok (backend i (delete_request row)) = true) →
  delete_ok (backend (length deleted) (delete_request failed)) = false →
  ∃ w, run (deleteSelectedRows (deleted ++ failed :: later);;
            executeConfirmedAction backend) a = (Ok (), w) ∧
       requests (log w) = delete_request <$> (deleted ++ [failed]) ∧
       toasts (log w) =
         [("Error deleting rows: "
           +:+ delete_error (backend (length deleted) (delete_request failed)) failed,
           "error")] ∧
       pendingChanges (app w) = pendingChanges a.
Proof.
  intros Hok Hfail. unfold run, deleteSelectedRows, executeConfirmedAction, confirm_delete.
  case_decide as Hlen; [rewrite length_app in Hlen; simpl in Hlen; lia|].
  run_step. rewrite delete_loop_app by done.
  rewrite delete_loop_fails by (simpl; done). simpl.
  eexists; split; [reflexivity|]. simpl.
  rewrite !requests_app, !toasts_app, list_fmap_compose, requests_fetches,
    toasts_fetches, fmap_app.
  simpl. by rewrite !app_nil_r.
Qed.

(** The confirmed delete when every delete succeeds. *)
Lemma confirmed_delete_success a rows :
  rows ≠ [] →
  (∀ i row, rows !! i = Some row →
            delete_ok (backend i (delete_request row)) = true) →
  ∃ w, run (deleteSelectedRows rows;; executeConfirmedAction backend) a = (Ok (), w) ∧
       requests (log w)
         = (delete_request <$> rows) ++ refresh_requests backend (length rows) ∧
       toasts (log w)
         = [(pretty (length rows) +:+ " row(s) deleted successfully", "success")].
Proof.
  intros Hne Hok. unfold run, deleteSelectedRows, executeConfirmedAction, confirm_delete.
  case_decide as Hlen; [by destruct rows|].
  run_step. rewrite delete_loop_all by done. simpl.
  match goal with |- context [refreshData backend ?w0] =>
    destruct (refreshData_app backend w0) as (w1 & -> & _ & _ & Hr & Ht) end.
  eexists; split; [reflexivity|]. simpl.
  rewrite !requests_app, !toasts_app, Hr, Ht. simpl.
  rewrite !requests_app, !toasts_app, list_fmap_compose, requests_fetches,
    toasts_fetches.
  simpl. by rewrite !app_nil_r.
Qed.
End ConfirmedDelete.

(** C8 (as amended). Once the user confirms, a non-empty selection is
    deleted one request per row, in selection order. If every delete
    succeeds, these are followed only by the refresh. If a delete fails,
    by a non-2xx status or by a rejected request, the run stops there:
    the requests are the deletes up to and including the failing one,
    nothing is sent for the rows after it and nothing is sent again for
    the rows before it, and the pending map is as it was. The only toast
    is one error: it names the failed row when the response has a non-2xx
    status, and carries the message of the rejection when the request
    was rejected. *)
Theorem delete_stops_at_first_failure :
  (∀ backend a rows,
     rows ≠ [] →
     (∀ i row, rows !! i = Some row →
               delete_ok (backend i (delete_request row)) = true) →
     ∃ w, run (deleteSelectedRows rows;; executeConfirmedAction backend) a = (Ok (), w) ∧
          requests (log w)
            = (delete_request <$> rows) ++ refresh_requests backend (length rows) ∧
          toasts (log w)
            = [(pretty (length rows) +:+ " row(s) deleted successfully", "success")]) ∧
  (∀ backend a deleted failed later,
     (∀ i row, deleted !! i = Some row →
               delete_ok (backend i (delete_request row)) = true) →
     delete_ok (backend (length deleted) (delete_request failed)) = false →
     ∃ w, run (deleteSelectedRows (deleted ++ failed :: later);;
               executeConfirmedAction backend) a = (Ok (), w) ∧
          requests (log w) = delete_request <$> (deleted ++ [failed]) ∧
          toasts (log w) =
            [("Error deleting rows: "
              +:+ match backend (length deleted) (delete_request failed) with
                  | Responded _ =>
                      "Failed to delete row " +:+ to_string (get_prop failed "ID")
                  | Rejected e => e
                  end, "error")] ∧
          pendingChanges (app w) = pendingChanges a).
Proof.
  split.
  - intros backend a rows. apply confirmed_delete_success.
  - intros backend a deleted failed later Hok Hfail.
    destruct (confirmed_delete_failure backend a deleted failed later Hok Hfail)
      as (w & Hrun & Hreq & Htoast & Hp).
    exists w. unfold delete_error in Htoast. done.
Qed.

(** The scenario of the specification: three rows selected, the second
    delete fails. *)
Lemma delete_stops_at_first_failure_witness :
  ∃ w, run (deleteSelectedRows ([row_1] ++ row_2 :: [row_3]);;
            executeConfirmedAction backend_second_fails) app_pending = (Ok (), w) ∧
       requests (log w) = delete_request <$> ([row_1] ++ [row_2]) ∧
       toasts (log w) =
         [("Error deleting rows: "
           +:+ match backend_second_fails (length [row_1]) (delete_request row_2) with
               | Responded _ =>
                   "Failed to delete row " +:+ to_string (get_prop row_2 "ID")
               | Rejected e => e
               end, "error")] ∧
       pendingChanges (app w) = pendingChanges app_pending.
Proof.
  apply (proj2 delete_stops_at_first_failure backend_second_fails app_pending
           [row_1] row_2 [row_3]).
  - intros [|i] row Hrow; [reflexivity | destruct i; discriminate].
  - reflexivity.
Defined.

(** C8 as stated fails when the failing delete is a rejected request:
    with three rows selected and the second request rejected, the run
    stops after two requests as before, but the toast carries the
    message of the rejection, in which the identifier of the second row
    does not occur. *)
Lemma delete_rejected_does_not_name_row :
  ∃ w, run (deleteSelectedRows [row_1; row_2; row_3];;
            executeConfirmedAction backend_second_rejected) app_pending = (Ok (), w) ∧
       requests (log w) = [DeleteItem "1"; DeleteItem "2"] ∧
       toasts (log w) = [("Error deleting rows: Failed to fetch", "error")] ∧
       to_string (get_prop row_2 "ID") = "2" ∧
       String.index 0 "2" "Error deleting rows: Failed to fetch" = None.
Proof.
  eexists. split; [vm_compute; reflexivity|].
  split_and!; vm_compute; reflexivity.
Qed.

Example delete_second_of_three_fails :
  ∃ w, run (deleteSelectedRows [row_1; row_2; row_3];;
            executeConfirmedAction backend_second_fails) app_pending = (Ok (), w) ∧
       requests (log w) = [DeleteItem "1"; DeleteItem "2"] ∧
       toasts (log w) = [("Error deleting rows: Failed to delete row 2", "error")].
Proof. eexists. split; [vm_compute; reflexivity|]. split; vm_compute; reflexivity. Qed.

(** * Further properties of the controller *)

(** ** Edits of several rows *)

(** X1. A run of cell edits leaves alone the entry of every row
    identifier under which none of its edits is filed, and never talks to
    the backend. *)
Theorem session_other_rows (a : App) (edits : list Edit) (rowId : JsValue) :
  edits_of rowId edits = [] →
  ∃ w, run (session edits) a = (Ok (), w) ∧
       map_get rowId (pendingChanges (app w)) = map_get rowId (pendingChanges a) ∧
       requests (log w) = [].
Proof.
  intros Hnone.
  destruct (session_app edits {| app := a; log := []; issued := 0 |})
    as (w & Hrun & Hp & Hr).
  exists w. split; [exact Hrun|]. split; [|exact Hr].
  rewrite Hp, map_get_foldl_track_edit, Hnone. done.
Qed.

Lemma session_other_rows_witness :
  edits_of (VNum 8) [(1000, edit_status); (1001, edit_owner)] = [] ∧
  ∃ w, run (session [(1000, edit_status); (1001, edit_owner)]) app_pending = (Ok (), w) ∧
       map_get (VNum 8) (pendingChanges (app w))
         = map_get (VNum 8) (pendingChanges app_pending) ∧
       requests (log w) = [].
Proof.
  split; [vm_compute; reflexivity|].
  apply (session_other_rows app_pending [(1000, edit_status); (1001, edit_owner)] (VNum 8)).
  vm_compute. reflexivity.
Defined.

(** X2. Edits of a row that already has a pending entry are merged into
    that entry: its [original] stays the snapshot it was created with, a
    field the new edits write holds the last value written, and every
    other field of [changes] keeps its value. The column [__proto__],
    which the assignment [changes[fieldName] = newValue] does not store,
    is left out. *)
Theorem session_existing_entry (a : App) (edits : list Edit) (rowId : JsValue)
    (entry : PendingEntry) :
  map_get rowId (pendingChanges a) = Some entry →
  Forall (λ event, colDef_field event ≠ "__proto__") (edits_of rowId edits) →
  ∃ w entry',
    run (session edits) a = (Ok (), w) ∧
    map_get rowId (pendingChanges (app w)) = Some entry' ∧
    original entry' = original entry ∧
    ∀ field,
      changes entry' !! field =
        match last_write field (edits_of rowId edits) with
        | Some v => Some v
        | None => changes entry !! field
        end.
Proof.
  intros Hentry _.
  destruct (session_app edits {| app := a; log := []; issued := 0 |})
    as (w & Hrun & Hp & _).
  eexists w, _. split; [exact Hrun|]. split.
  - rewrite Hp, map_get_foldl_track_edit. simpl. rewrite Hentry.
    apply foldl_merge_edit_Some.
  - split; [done|]. intros field. simpl. apply foldl_writes_lookup.
Qed.

(** The row with [ID] 7 has its status pending; its owner is edited
    next. *)
Lemma session_existing_entry_witness :
  map_get (VNum 7) (pendingChanges app_pending_numeric)
    = Some {| original := row7; changes := {[ "Status" := VStr "Closed" ]} |} ∧
  edits_of (VNum 7) [(1000, edit_owner)] = [edit_owner] ∧
  ∃ w entry',
    run (session [(1000, edit_owner)]) app_pending_numeric = (Ok (), w) ∧
    map_get (VNum 7) (pendingChanges (app w)) = Some entry' ∧
    original entry' = row7 ∧
    ∀ field,
      changes entry' !! field =
        match last_write field (edits_of (VNum 7) [(1000, edit_owner)]) with
        | Some v => Some v
        | None => ({[ "Status" := VStr "Closed" ]} : JsObject) !! field
        end.
Proof.
  split; [reflexivity|]. split; [vm_compute; reflexivity|].
  apply (session_existing_entry app_pending_numeric [(1000, edit_owner)] (VNum 7)
           {| original := row7; changes := {[ "Status" := VStr "Closed" ]} |} eq_refl).
  apply (bool_decide_unpack _). vm_compute. reflexivity.
Defined.

Example owner_merged_into_pending_status :
  ∃ w, run (session [(1000, edit_owner)]) app_pending_numeric = (Ok (), w) ∧
       pendingChanges (app w) =
         [(VNum 7, {| original := row7;
                      changes := {[ "Status" := VStr "Closed"; "Owner" := VStr "Bob" ]} |})].
Proof. eexists. split; vm_compute; reflexivity. Qed.



(** The keys of the pending map after one more edit. *)
Lemma map_keys_track_edit m (edit : Edit) :
  map_keys (track_edit m edit) =
    if effective edit.2 then
      if decide (rowId_of edit.1 edit.2 ∈ map_keys m) then map_keys m
      else map_keys m ++ [rowId_of edit.1 edit.2]
    else map_keys m.
Proof.
  unfold track_edit. destruct (effective edit.2); [|done].
  unfold track. rewrite map_keys_mutate. unfold map_has.
  destruct (map_get (rowId_of edit.1 edit.2) m) eqn:Hget; simpl.
  - rewrite decide_True; [done|].
    destruct (decide (rowId_of edit.1 edit.2 ∈ map_keys m)) as [|Hnin]; [done|].
    apply map_get_None in Hnin. congruence.
  - rewrite decide_False by (by apply map_get_None).
    by apply map_keys_set_fresh.
Qed.

Lemma first_occurrences_elem_of l x : x ∈ first_occurrences l ↔ x ∈ l.
Proof.
  induction l as [|y l IH]; [done|]. simpl.
  rewrite !elem_of_cons, list_elem_of_filter, IH.
  destruct (decide (x = y)); intuition.
Qed.

Lemma filter_all {A} (P : A → Prop) `{!∀ x, Decision (P x)} (l : list A) :
  (∀ x, P x) → filter P l = l.
Proof.
  intros HP. induction l as [|x l IH]; [done|].
  rewrite filter_cons_True by done. by rewrite IH.
Qed.

Lemma map_keys_foldl_track_edit edits m :
  map_keys (foldl track_edit m edits) =
    map_keys m ++ filter (λ k, k ∉ map_keys m) (first_occurrences (edited_ids edits)).
Proof.
  revert m. induction edits as [|edit edits IH]; intros m; simpl.
  - by rewrite app_nil_r.
  - rewrite IH, map_keys_track_edit. unfold edited_ids. csimpl.
    fold (edited_ids edits). destruct (effective edit.2); simpl; [|done].
    set (k := rowId_of edit.1 edit.2).
    destruct (decide (k ∈ map_keys m)) as [Hin|Hnin].
    + rewrite filter_cons_False by (intros Hk; by apply Hk).
      f_equal. rewrite list_filter_filter. apply list_filter_iff.
      intros x. split; [|by intros [? _]]. intros Hx. split; [done|].
      intros ->. by apply Hx.
    + rewrite filter_cons_True by done. rewrite <-app_assoc. simpl. do 2 f_equal.
      rewrite list_filter_filter. apply list_filter_iff. intros x.
      rewrite elem_of_app, list_elem_of_singleton. intuition.
Qed.

(** X4. From an empty pending map, the keys of the map after a run of
    edits are the identifiers of the effective edits, each once, in the
    order in which they were first edited; this is the order in which
    [saveAllChanges] walks the entries. *)
Theorem session_keys_in_first_edit_order (a : App) (edits : list Edit) :
  pendingChanges a = [] →
  ∃ w, run (session edits) a = (Ok (), w) ∧
       map_keys (pendingChanges (app w)) = first_occurrences (edited_ids edits) ∧
       map_size (pendingChanges (app w))
         = length (first_occurrences (edited_ids edits)).
Proof.
  intros Hempty.
  destruct (session_app edits {| app := a; log := []; issued := 0 |})
    as (w & Hrun & Hp & _).
  exists w. split; [exact Hrun|]. simpl in Hp. rewrite Hempty in Hp.
  assert (map_keys (pendingChanges (app w)) = first_occurrences (edited_ids edits))
    as Hkeys.
  { rewrite Hp, map_keys_foldl_track_edit. simpl.
    apply filter_all. intros x. apply not_elem_of_nil. }
  split; [exact Hkeys|]. unfold map_size. rewrite <-Hkeys. unfold map_keys.
  by rewrite length_fmap.
Qed.

Lemma session_keys_in_first_edit_order_witness :
  pendingChanges new_app = [] ∧
  ∃ w, run (session [(1000, draft_title); (1001, edit_status); (1002, draft_owner);
                     (1003, edit_owner)]) new_app = (Ok (), w) ∧
       map_keys (pendingChanges (app w))
         = first_occurrences (edited_ids [(1000, draft_title); (1001, edit_status);
                                          (1002, draft_owner); (1003, edit_owner)]) ∧
       map_size (pendingChanges (app w))
         = length (first_occurrences
                     (edited_ids [(1000, draft_title); (1001, edit_status);
                                  (1002, draft_owner); (1003, edit_owner)])).
Proof.
  split; [reflexivity|].
  apply (session_keys_in_first_edit_order new_app). reflexivity.
Defined.

(** ** What every listener does to the pending map *)

Lemma shown_count_app l1 l2 :
  shown_count (l1 ++ l2) =
    match shown_count l2 with Some n => Some n | None => shown_count l1 end.
Proof. unfold shown_count. by rewrite omap_app, last_app. Qed.

Lemma shown_save_enabled_app l1 l2 :
  shown_save_enabled (l1 ++ l2) =
    match shown_save_enabled l2 with Some b => Some b | None => shown_save_enabled l1 end.
Proof. unfold shown_save_enabled. by rewrite omap_app, last_app. Qed.

Lemma shown_count_fetches (rs : list Request) : shown_count (Fetch <$> rs) = None.
Proof.
  unfold shown_count.
  assert (omap (λ e, match e with UpdatePendingChangesCount n => Some n | _ => None end)
            (Fetch <$> rs) = []) as ->; [|done].
  induction rs as [|r rs IH]; [done|]. csimpl. by rewrite IH.
Qed.

Lemma shown_save_enabled_fetches (rs : list Request) :
  shown_save_enabled (Fetch <$> rs) = None.
Proof.
  unfold shown_save_enabled.
  assert (omap (λ e, match e with EnableSaveButton b => Some b | _ => None end)
            (Fetch <$> rs) = []) as ->; [|done].
  induction rs as [|r rs IH]; [done|]. csimpl. by rewrite IH.
Qed.

Ltac display_done :=
  unfold display; simpl;
  rewrite ?shown_count_app, ?shown_save_enabled_app; simpl;
  rewrite ?shown_count_fetches, ?shown_save_enabled_fetches; simpl;
  try done.

Section Steps.
Variable backend : nat → Request → Reply.
Variable parseFloat : string → JsValue.
Variable payload_of : nat → Payload.
Variable today : string.

Lemma onCellChanged_step now event w :
  ∃ r, (onCellChanged now event w).1 = Ok r ∧
       pending_step w (onCellChanged now event w).2.
Proof.
  unfold onCellChanged. run_step.
  destruct (negb (strict_eq (newValue event) (oldValue event))) eqn:Heff; simpl.
  - eexists; split; [done|]. apply (step_tracked _ _ (now, event)); [done|].
    unfold track_edit, effective. simpl. rewrite Heff. display_done.
  - eexists; split; [done|]. by apply step_same.
Qed.

Lemma loadInitialData_display w :
  ∃ w', loadInitialData backend w = (Ok (), w') ∧ display w' = display w ∧
        pendingConfirmAction (app w') = pendingConfirmAction (app w).
Proof.
  unfold loadInitialData. run_step.
  destruct (backend (issued w) GetFields) as [e|[o [e|b]]]; simpl;
    [eexists; split; [reflexivity|]; split; [display_done|done] ..|].
  destruct (truthy (j_error b)); simpl;
    [eexists; split; [reflexivity|]; split; [display_done|done]|].
  destruct (backend (S (issued w)) GetData) as [e|[o' [e|b']]]; simpl;
    [eexists; split; [reflexivity|]; split; [display_done|done] ..|].
  destruct (truthy (j_error b')); simpl;
    eexists; (split; [reflexivity|]); (split; [display_done|done]).
Qed.

Lemma refreshData_display w :
  ∃ w', refreshData backend w = (Ok (), w') ∧
        display w' = ([], Some 0%nat, Some false) ∧
        pendingConfirmAction (app w') = pendingConfirmAction (app w).
Proof.
  destruct (loadInitialData_display w) as (w1 & Hrun & _ & Hc).
  unfold refreshData. run_step. rewrite Hrun.
  eexists; split; [reflexivity|]. split; [display_done | done].
Qed.

Lemma saveAllChanges_step w :
  pending_step w (saveAllChanges backend w).2.
Proof.
  unfold saveAllChanges. run_step.
  case_decide as Hz; simpl; [apply step_same; display_done|].
  destruct (build_operations (pendingChanges (app w))) as [ops|e]; simpl;
    [|by apply step_same].
  run_step.
  destruct (backend (issued w) (PostBulk ops)) as [e|[o [e|b]]]; simpl;
    [apply step_same; display_done ..|].
  destruct (truthy (j_success b)); simpl; [|apply step_same; display_done].
  match goal with |- context [refreshData backend ?w0] =>
    destruct (refreshData_display w0) as (w1 & -> & Hd & _) end.
  by apply step_cleared.
Qed.

Lemma saveRowFromModal_step entries checked w :
  ∃ r, (saveRowFromModal backend parseFloat entries checked w).1 = Ok r ∧
       pending_step w (saveRowFromModal backend parseFloat entries checked w).2.
Proof.
  unfold saveRowFromModal. run_step.
  case_decide as Hlen; simpl;
    [eexists; split; [done|]; apply step_same; display_done|].
  match goal with |- context [backend (issued w) ?r] =>
    destruct (backend (issued w) r) as [e|[o [e|b]]] end; simpl;
    [eexists; split; [done|]; apply step_same; display_done ..|].
  destruct (truthy (j_success b)); simpl;
    [|eexists; split; [done|]; apply step_same; display_done].
  match goal with |- context [refreshData backend ?w0] =>
    destruct (refreshData_display w0) as (w1 & -> & Hd & _) end.
  eexists; split; [done|]. by apply step_cleared.
Qed.

(** Whatever the backend answers, the delete loop only issues delete
    requests. *)
Lemma delete_loop_log rows w :
  ∃ r rs, delete_loop backend rows w
          = (r, {| app := app w; log := log w ++ (Fetch <$> rs);
                   issued := (issued w + length rs)%nat |}).
Proof.
  revert w. induction rows as [|row rows IH]; intros w; simpl.
  - exists (Ok ()), []. simpl. rewrite app_nil_r, Nat.add_0_r. by destruct w.
  - run_step.
    destruct (backend (issued w) _) as [e|resp] eqn:Hreply; simpl.
    + eexists _, [_]. simpl. by rewrite Nat.add_1_r.
    + destruct (ok resp); simpl.
      * destruct (IH {| app := app w;
                        log := log w ++ [Fetch (DeleteItem (to_string (get_prop row "ID")))];
                        issued := S (issued w) |}) as (r & rs & ->).
        exists r, (DeleteItem (to_string (get_prop row "ID")) :: rs). simpl.
        by rewrite <-app_assoc, Nat.add_succ_r.
      * eexists _, [_]. simpl. by rewrite Nat.add_1_r.
Qed.

Lemma executeConfirmedAction_step w :
  ∃ w', executeConfirmedAction backend w = (Ok (), w') ∧
        pending_step w w' ∧ pendingConfirmAction (app w') = None.
Proof.
  unfold executeConfirmedAction, confirm_delete. run_step.
  destruct (pendingConfirmAction (app w)) as [rows|] eqn:Hc; simpl.
  - destruct (delete_loop_log rows w) as (r & rs & ->). destruct r as [[]|e]; simpl.
    + match goal with |- context [refreshData backend ?w0] =>
        destruct (refreshData_display w0) as (w1 & -> & Hd & _) end.
      eexists; split; [reflexivity|]. split; [|done].
      apply step_cleared. unfold display in *. simpl.
      rewrite shown_count_app, shown_save_enabled_app. simpl.
      by injection Hd as -> -> ->.
    + eexists; split; [reflexivity|]. split; [|done]. apply step_same. display_done.
  - eexists; split; [reflexivity|]. split; [|done]. apply step_same. display_done.
Qed.

Lemma deleteSelectedRows_step rows w :
  ∃ w', deleteSelectedRows rows w = (Ok (), w') ∧ display w' = display w ∧
        requests (log w') = requests (log w).
Proof.
  unfold deleteSelectedRows. run_step.
  case_decide; simpl; eexists; (split; [reflexivity|]);
    (split; [display_done|]); simpl; rewrite ?requests_app; simpl;
    by rewrite ?app_nil_r.
Qed.

Lemma addNewRow_step w :
  ∃ dom w', addNewRow w = (Ok dom, w') ∧ display w' = display w ∧
            requests (log w') = requests (log w).
Proof.
  unfold addNewRow. run_step. eexists _, _; split; [reflexivity|].
  split; [display_done|]. simpl. rewrite requests_app. simpl. by rewrite app_nil_r.
Qed.

Lemma exportData_step format w :
  ∃ dom w', exportData backend payload_of today format w = (Ok dom, w') ∧
            app w' = app w ∧ display w' = display w.
Proof.
  unfold exportData, get_issued. run_step.
  destruct (backend (issued w) (GetExport format)) as [e|resp]; simpl;
    [eexists _, _; split; [reflexivity|]; split; [done|display_done]|].
  destruct (ok resp); simpl;
    [|eexists _, _; split; [reflexivity|]; split; [done|display_done]].
  destruct (blob_error (payload_of (issued w))); simpl;
    eexists _, _; (split; [reflexivity|]); (split; [done|display_done]).
Qed.

Lemma pending_step_same_r w w1 w2 :
  pending_step w w1 → display w2 = display w1 → pending_step w w2.
Proof.
  intros [Hs|Hc|edit Heff Ht] Hd.
  - apply step_same. congruence.
  - apply step_cleared. congruence.
  - apply (step_tracked _ _ edit); [done|]. congruence.
Qed.

Lemma shortcut_then_delete_step (shortcut : M (list Dom)) (delete : M unit) :
  (∀ w, ∃ dom w1, shortcut w = (Ok dom, w1) ∧ pending_step w w1) →
  (∀ w1, ∃ w2, delete w1 = (Ok (), w2) ∧ display w2 = display w1) →
  ∀ w, ∃ dom w', (dom ← shortcut; delete;; mret dom) w = (Ok dom, w') ∧
                 pending_step w w'.
Proof.
  intros Hs Hd w. destruct (Hs w) as (dom & w1 & Hrun1 & Hstep).
  destruct (Hd w1) as (w2 & Hrun2 & Hsame).
  exists dom, w2. unfold mbind, M_bind, mret, M_ret. cbv beta. rewrite Hrun1, Hrun2.
  split; [done|]. by eapply pending_step_same_r.
Qed.

Lemma handleKeyboardShortcuts_step event selectedRows w :
  ∃ dom w', handleKeyboardShortcuts backend event selectedRows w = (Ok dom, w') ∧
            pending_step w w'.
Proof.
  unfold handleKeyboardShortcuts. apply shortcut_then_delete_step; clear w.
  - intros w. destruct (ctrlKey event || metaKey event);
      [|eexists _, _; split; [reflexivity|]; by apply step_same].
    case_bool_decide.
    { unfold detached, mbind, M_bind, mret, M_ret. simpl.
      eexists _, _; split; [reflexivity|]. apply saveAllChanges_step. }
    case_bool_decide.
    { destruct (addNewRow_step w) as (dom & w1 & Hrun & Hd1 & _).
      unfold mbind, M_bind, mret, M_ret. cbv beta.
      eexists _, _; split; [by rewrite Hrun|]. by apply step_same. }
    case_bool_decide.
    { destruct (refreshData_display w) as (w1 & Hrun & Hd1 & _).
      unfold detached, mbind, M_bind, mret, M_ret. cbv beta.
      eexists _, _; split; [by rewrite Hrun|]. by apply step_cleared. }
    case_bool_decide; eexists _, _; (split; [reflexivity|]); by apply step_same.
  - intros w1. case_bool_decide; [case_decide|].
    + destruct (deleteSelectedRows_step selectedRows w1) as (w2 & Hrun & Hd & _).
      by exists w2.
    + by exists w1.
    + by exists w1.
Qed.

Lemma listener_step e w :
  pending_step w (listener backend parseFloat payload_of today e w).2.
Proof.
  destruct e; cbv [listener mbind M_bind mret M_ret]; cbv beta.
  - destruct (onCellChanged_step now event w) as (r & Hr & Hs).
    destruct (onCellChanged now event w) as [o w']. simpl in *. by subst.
  - by apply step_same.
  - destruct (addNewRow_step w) as (dom & w' & -> & Hd & _). by apply step_same.
  - destruct (deleteSelectedRows_step selectedRows w) as (w' & -> & Hd & _).
    by apply step_same.
  - pose proof (saveAllChanges_step w) as Hs.
    destruct (saveAllChanges backend w) as [[[]|e] w']; simpl in *; done.
  - destruct (refreshData_display w) as (w' & -> & Hd & _). by apply step_cleared.
  - destruct (exportData_step "excel" w) as (dom & w' & -> & _ & Hd). by apply step_same.
  - destruct (exportData_step "csv" w) as (dom & w' & -> & _ & Hd). by apply step_same.
  - by apply step_same.
  - by apply step_same.
  - by destruct (handleKeyboardShortcuts_step event selectedRows w) as (dom & w' & -> & Hs).
  - destruct (saveRowFromModal_step entries checked w) as (r & Hr & Hs).
    destruct (saveRowFromModal backend parseFloat entries checked w) as [o w'].
    simpl in *. by subst.
  - destruct (executeConfirmedAction_step w) as (w' & -> & Hs & _). done.
Qed.

(** A property of pending maps that holds of the empty map and survives
    the filing of an edit holds along every session of events. *)
Lemma event_loop_pending (P : JsMap PendingEntry → Prop) events w :
  P [] →
  (∀ m edit, effective edit.2 = true → P m → P (track_edit m edit)) →
  P (pendingChanges (app w)) →
  P (pendingChanges (app (event_loop backend parseFloat payload_of today events w))).
Proof.
  intros Hnil Htrack. revert w. induction events as [|e events IH]; intros w HP; [done|].
  simpl. apply IH.
  destruct (listener_step e w) as [Hs|Hc|edit Heff Ht]; unfold display in *.
  - injection Hs as -> _ _. done.
  - injection Hc as -> _ _. done.
  - injection Ht as -> _ _. by apply Htrack.
Qed.
End Steps.

(** ** Invariants of a session *)

Lemma track_edit_nonempty m edit : effective edit.2 = true → track_edit m edit ≠ [].
Proof.
  intros Heff Hnil.
  pose proof (map_get_track_edit m (rowId_of edit.1 edit.2) edit) as Hget.
  rewrite Hnil, Heff, bool_decide_eq_true_2 in Hget by done. done.
Qed.

Lemma pending_step_consistent w w' :
  pending_step w w' → display_consistent w → display_consistent w'.
Proof.
  unfold display_consistent, display.
  intros [Hs|Hc|edit Heff Ht] [Hcount Hsave].
  - injection Hs as -> -> ->. done.
  - injection Hc as -> -> ->. split; [by intros n [= <-] | by intros b [= <-]].
  - injection Ht as -> -> ->. split; [by intros n [= <-]|].
    intros b [= <-]. rewrite bool_decide_eq_false_2; [done|].
    by apply track_edit_nonempty.
Qed.

(** X5. Along every session of events, whatever the backend answers,
    the pending badge and the save button agree with the pending map:
    the count last shown is the number of entries, and the button was
    last enabled exactly when the map is not empty. *)
Theorem event_loop_display_consistent backend parseFloat payload_of today events w :
  display_consistent w →
  display_consistent (event_loop backend parseFloat payload_of today events w).
Proof.
  revert w. induction events as [|e events IH]; intros w Hw; [done|].
  simpl. apply IH. eapply pending_step_consistent; [apply listener_step | done].
Qed.

Lemma event_loop_display_consistent_witness :
  display_consistent
    (event_loop backend_reads_down parseFloat_NaN plain_payload "2024-01-01"
       sample_events new_world).
Proof.
  apply (event_loop_display_consistent backend_reads_down parseFloat_NaN plain_payload
           "2024-01-01" sample_events new_world).
  split; intros ?; discriminate.
Defined.

(** X6. Along every session of events, a row identifier has at most one
    entry in the pending map. *)
Theorem event_loop_keys_NoDup backend parseFloat payload_of today events w :
  NoDup (map_keys (pendingChanges (app w))) →
  NoDup (map_keys (pendingChanges
                     (app (event_loop backend parseFloat payload_of today events w)))).
Proof.
  apply (event_loop_pending backend parseFloat payload_of today
           (λ m, NoDup (map_keys m))).
  - constructor.
  - intros m edit _. apply track_edit_NoDup.
Qed.

Lemma event_loop_keys_NoDup_witness :
  NoDup (map_keys (pendingChanges
                     (app (event_loop backend_reads_down parseFloat_NaN plain_payload
                             "2024-01-01" sample_events new_world)))).
Proof.
  apply (event_loop_keys_NoDup backend_reads_down parseFloat_NaN plain_payload
           "2024-01-01" sample_events new_world).
  constructor.
Defined.

Lemma map_set_absent {V} (m : JsMap V) k v :
  map_get k m = None → map_set k v m = m ++ [(k, v)].
Proof.
  induction m as [|[k0 v0] m IH]; simpl; [done|].
  case_decide; [done|]. intros Hget. by rewrite IH.
Qed.

Lemma map_mutate_app_absent {V} (m : JsMap V) k f v :
  map_get k m = None → map_mutate k f (m ++ [(k, v)]) = m ++ [(k, f v)].
Proof.
  induction m as [|[k0 v0] m IH]; simpl.
  - intros _. by rewrite decide_True.
  - case_decide; [done|]. intros Hget. by rewrite IH.
Qed.

Lemma Forall_map_mutate {V} (Q : JsValue * V → Prop) (m : JsMap V) k f :
  (∀ v, Q (k, v) → Q (k, f v)) → Forall Q m → Forall Q (map_mutate k f m).
Proof.
  intros Hf. induction 1 as [|[k0 v0] m HQ Hm IH]; simpl; [constructor|].
  case_decide; subst; constructor; auto.
Qed.

(** A property of entries that the first write establishes and later
    writes keep holds of every entry after an edit is filed. *)
Lemma track_Forall (Q : JsValue * PendingEntry → Prop) rowId event m :
  (∀ e, Q (rowId, e) →
        Q (rowId, {| original := original e;
                     changes := <[colDef_field event := newValue event]> (changes e) |})) →
  Q (rowId, {| original := data event;
               changes := <[colDef_field event := newValue event]> ∅ |}) →
  Forall Q m → Forall Q (track rowId event m).
Proof.
  intros Hkeep Hnew HQ. unfold track, map_has.
  destruct (map_get rowId m) eqn:Hget; simpl.
  - by apply Forall_map_mutate.
  - rewrite map_set_absent, map_mutate_app_absent by done.
    apply Forall_app. split; [done|]. by constructor.
Qed.

(** X7. Along every session of events in which no edited column is
    named [__proto__], every pending entry holds at least one changed
    field, so no operation without data is ever built from the map. (An
    assignment [changes[fieldName] = newValue] under the name [__proto__]
    stores no property, which is why that column is left out.) *)
Theorem event_loop_changes_nonempty backend parseFloat payload_of today events w :
  Forall (λ e, match e with
               | CellEditingStopped _ event => colDef_field event ≠ "__proto__"
               | _ => True
               end) events →
  Forall (λ kv, changes kv.2 ≠ ∅) (pendingChanges (app w)) →
  Forall (λ kv, changes kv.2 ≠ ∅)
    (pendingChanges (app (event_loop backend parseFloat payload_of today events w))).
Proof.
  intros _.
  apply (event_loop_pending backend parseFloat payload_of today
           (Forall (λ kv : JsValue * PendingEntry, changes kv.2 ≠ ∅))).
  - constructor.
  - intros m edit Heff HQ. unfold track_edit. rewrite Heff.
    apply track_Forall; [| |done]; simpl; intros; apply insert_non_empty.
Qed.

Lemma event_loop_changes_nonempty_witness :
  pendingChanges (app (event_loop backend_reads_down parseFloat_NaN plain_payload
                         "2024-01-01" sample_events new_world)) ≠ [] ∧
  Forall (λ kv, changes kv.2 ≠ ∅)
    (pendingChanges (app (event_loop backend_reads_down parseFloat_NaN plain_payload
                            "2024-01-01" sample_events new_world))).
Proof.
  split; [vm_compute; discriminate|].
  apply (event_loop_changes_nonempty backend_reads_down parseFloat_NaN plain_payload
           "2024-01-01" sample_events new_world).
  - repeat constructor; simpl; discriminate.
  - constructor.
Defined.

(** X8. Along every session of events, every pending entry is filed
    under the [ID] of its own snapshot when that [ID] is truthy, and under
    a temporary token [new_<clock>] when it is not: an entry is never
    filed under the identifier of another row's snapshot. *)
Theorem event_loop_key_matches_original backend parseFloat payload_of today events w :
  Forall key_matches_original (pendingChanges (app w)) →
  Forall key_matches_original
    (pendingChanges (app (event_loop backend parseFloat payload_of today events w))).
Proof.
  apply (event_loop_pending backend parseFloat payload_of today
           (Forall key_matches_original)).
  - constructor.
  - intros m [now event] Heff HQ. unfold track_edit. simpl in *. rewrite Heff.
    apply track_Forall; [done| |done].
    unfold key_matches_original. simpl.
    destruct (truthy (get_prop (data event) "ID")) eqn:Hid.
    + left. split; [done|]. by apply rowId_of_backend_id.
    + right. split; [done|]. exists now. by apply rowId_of_temporary.
Qed.

Lemma event_loop_key_matches_original_witness :
  Forall key_matches_original
    (pendingChanges (app (event_loop backend_reads_down parseFloat_NaN plain_payload
                            "2024-01-01" sample_events new_world))).
Proof.
  apply (event_loop_key_matches_original backend_reads_down parseFloat_NaN plain_payload
           "2024-01-01" sample_events new_world).
  constructor.
Defined.

(** ** More on the bulk commit *)

(** X9. When every key of a non-empty pending map is a string, the
    first request of [saveAllChanges] is one bulk request with exactly one
    operation per entry, in the order of the map: a create with the
    snapshot overridden by the changes for a key that starts with [new_],
    an update with the key and the changes otherwise. Any further request
    belongs to the refresh. *)
Theorem bulk_request_follows_map backend a (entries : list (string * PendingEntry)) :
  entries ≠ [] →
  pendingChanges a = prod_map VStr id <$> entries →
  ∃ w rest, run (saveAllChanges backend) a = (Ok (), w) ∧
            requests (log w)
              = PostBulk ((λ kv, if startsWith "new_" kv.1
                                 then OpCreate (changes kv.2 ∪ original kv.2)
                                 else OpUpdate (VStr kv.1) (changes kv.2)) <$> entries)
                  :: rest ∧
            Forall (λ r, r = GetFields ∨ r = GetData) rest.
Proof. apply saveAllChanges_string_keys. Qed.

Lemma bulk_request_follows_map_witness :
  ∃ w rest, run (saveAllChanges backend_bulk_fails) app_string_keys = (Ok (), w) ∧
            requests (log w)
              = PostBulk ((λ kv, if startsWith "new_" kv.1
                                 then OpCreate (changes kv.2 ∪ original kv.2)
                                 else OpUpdate (VStr kv.1) (changes kv.2))
                            <$> string_entries)
                  :: rest ∧
            Forall (λ r, r = GetFields ∨ r = GetData) rest.
Proof.
  apply (bulk_request_follows_map backend_bulk_fails app_string_keys string_entries).
  - discriminate.
  - reflexivity.
Defined.

Lemma build_operations_throws m :
  Exists (λ kv : JsValue * PendingEntry, ∀ s, kv.1 ≠ VStr s) m →
  build_operations m = Throw "TypeError: rowId.startsWith is not a function".
Proof.
  induction 1 as [[k e] m Hk|[k e] m Hex IH]; simpl in *.
  - destruct k; try done. by destruct (Hk s).
  - destruct k; try done. by rewrite IH.
Qed.

(** X10. One key that is not a string anywhere in the pending map makes
    [saveAllChanges] raise the [TypeError] before anything is sent: the
    entries under string keys are not committed either, and the
    application object is left as it was. *)
Theorem saveAllChanges_non_string_key backend a :
  Exists (λ kv : JsValue * PendingEntry, ∀ s, kv.1 ≠ VStr s) (pendingChanges a) →
  run (saveAllChanges backend) a
    = (Throw "TypeError: rowId.startsWith is not a function",
       {| app := a; log := []; issued := 0 |}).
Proof.
  intros Hex. unfold run, saveAllChanges. run_step.
  case_decide as Hz; [by destruct Hex|].
  by rewrite (build_operations_throws _ Hex).
Qed.

Lemma saveAllChanges_non_string_key_witness :
  run (saveAllChanges backend_reads_down) app_mixed_keys
    = (Throw "TypeError: rowId.startsWith is not a function",
       {| app := app_mixed_keys; log := []; issued := 0 |}).
Proof.
  apply (saveAllChanges_non_string_key backend_reads_down app_mixed_keys).
  apply Exists_cons_tl, Exists_cons_hd. intros s. discriminate.
Defined.

(** X11. When the bulk request is rejected or its body does not parse,
    [saveAllChanges] shows the error's message in one toast and stops:
    one request, no retry, and the application object, pending map
    included, as it was. *)
Theorem saveAllChanges_transport_failure backend a ops e :
  pendingChanges a ≠ [] →
  build_operations (pendingChanges a) = Ok ops →
  transport_failure (backend 0%nat (PostBulk ops)) = Some e →
  run (saveAllChanges backend) a
    = (Ok (),
       {| app := a;
          log := [Fetch (PostBulk ops); ShowToast ("Error saving changes: " +:+ e) "error"];
          issued := 1 |}).
Proof.
  intros Hne Hops Hfail. unfold run, saveAllChanges. run_step.
  case_decide as Hz; [by destruct (pendingChanges a)|]. rewrite Hops. run_step.
  unfold transport_failure in Hfail.
  destruct (backend 0%nat (PostBulk ops)) as [e'|[o [e'|b]]]; simpl in *;
    by simplify_eq.
Qed.

Lemma saveAllChanges_transport_failure_witness :
  run (saveAllChanges backend_down) app_pending
    = (Ok (),
       {| app := app_pending;
          log := [Fetch (PostBulk [OpUpdate (VStr "7") {[ "Status" := VStr "Closed" ]}]);
                  ShowToast ("Error saving changes: " +:+ "Failed to fetch") "error"];
          issued := 1 |}).
Proof.
  apply (saveAllChanges_transport_failure backend_down app_pending
           [OpUpdate (VStr "7") {[ "Status" := VStr "Closed" ]}] "Failed to fetch").
  - discriminate.
  - vm_compute. reflexivity.
  - reflexivity.
Defined.

Section BulkFromAnyWorld.
Variable backend : nat → Request → Reply.

End BulkFromAnyWorld.



(** ** Loading and refreshing *)

(** X13. Whatever the backend answers, [loadInitialData] completes
    without raising: it shows the spinner first, hides it last, and
    leaves the pending map alone. *)
Theorem loadInitialData_spinner backend w :
  ∃ w' rest,
    loadInitialData backend w = (Ok (), w') ∧
    log w' = log w ++ ShowLoading true :: rest ∧
    last (log w') = Some (ShowLoading false) ∧
    pendingChanges (app w') = pendingChanges (app w).
Proof.
  unfold loadInitialData. run_step.
  assert (∀ (l : list Effect) x y, (l ++ [x]) ++ y = l ++ x :: y) as Hsnoc.
  { intros. by rewrite <-app_assoc. }
  destruct (backend (issued w) GetFields) as [e|[o [e|b]]]; simpl;
    [eexists _, _; split; [reflexivity|]; simpl; rewrite last_snoc;
     rewrite !Hsnoc; done ..|].
  destruct (truthy (j_error b)); simpl;
    [eexists _, _; split; [reflexivity|]; simpl; rewrite last_snoc;
     rewrite !Hsnoc; done|].
  destruct (backend (S (issued w)) GetData) as [e|[o' [e|b']]]; simpl;
    [eexists _, _; split; [reflexivity|]; simpl; rewrite last_snoc;
     rewrite !Hsnoc; done ..|].
  destruct (truthy (j_error b')); simpl;
    eexists _, _; (split; [reflexivity|]); simpl; rewrite last_snoc;
    rewrite !Hsnoc; done.
Qed.

(** X14. When both replies carry a body without an error,
    [loadInitialData] installs the schema and the rows of the replies (an
    absent list counts as empty), hands them to the grid and marks the
    controller connected; the HTTP status of the replies is not
    consulted. *)
Theorem loadInitialData_success backend w o1 b1 o2 b2 :
  backend (issued w) GetFields = Responded {| ok := o1; json := inr b1 |} →
  truthy (j_error b1) = false →
  backend (S (issued w)) GetData = Responded {| ok := o2; json := inr b2 |} →
  truthy (j_error b2) = false →
  loadInitialData backend w
    = (Ok (),
       {| app := set_isConnected true
                   (set_currentData (default [] (j_items b2))
                      (set_fields (default [] (j_fields b1)) (app w)));
          log := log w ++
                 [ShowLoading true; Fetch GetFields;
                  SetColumnDefs (default [] (j_fields b1)); Fetch GetData;
                  SetRowData (default [] (j_items b2));
                  UpdateStatusInfo (js_or (j_total b2) (VNum 0));
                  ShowError None; ShowLoading false];
          issued := S (S (issued w)) |}).
Proof.
  intros H1 He1 H2 He2. unfold loadInitialData. run_step.
  rewrite H1. simpl. rewrite He1. simpl. rewrite H2. simpl. rewrite He2. simpl.
  by rewrite <-!app_assoc.
Qed.

Lemma loadInitialData_success_witness :
  loadInitialData backend_serving new_world
    = (Ok (),
       {| app := set_isConnected true
                   (set_currentData (default [] (j_items rows_body))
                      (set_fields (default [] (j_fields schema_body)) (app new_world)));
          log := log new_world ++
                 [ShowLoading true; Fetch GetFields;
                  SetColumnDefs (default [] (j_fields schema_body)); Fetch GetData;
                  SetRowData (default [] (j_items rows_body));
                  UpdateStatusInfo (js_or (j_total rows_body) (VNum 0));
                  ShowError None; ShowLoading false];
          issued := S (S (issued new_world)) |}).
Proof.
  apply (loadInitialData_success backend_serving new_world false schema_body
           false rows_body); reflexivity.
Defined.

(** X15. When the schema request fails (rejected, unparsable, or a body
    with an error), [loadInitialData] shows the error's message, marks
    the controller disconnected and never asks for the rows: the schema,
    the rows and the pending map stay as they were. *)
Theorem loadInitialData_schema_failure backend w e :
  load_failure (backend (issued w) GetFields) = Some e →
  loadInitialData backend w
    = (Ok (),
       {| app := set_isConnected false (app w);
          log := log w ++ [ShowLoading true; Fetch GetFields; ConsoleError e;
                           ShowError (Some e); ShowLoading false];
          issued := S (issued w) |}).
Proof.
  intros Hfail. unfold loadInitialData, load_failure in *. run_step.
  destruct (backend (issued w) GetFields) as [e'|[o [e'|b]]]; simpl in *;
    [simplify_eq; by rewrite <-!app_assoc ..|].
  destruct (truthy (j_error b)); simpl in *; [|done].
  simplify_eq. by rewrite <-!app_assoc.
Qed.

Lemma loadInitialData_schema_failure_witness :
  loadInitialData backend_down {| app := app_editing; log := []; issued := 0 |}
    = (Ok (),
       {| app := set_isConnected false app_editing;
          log := [] ++ [ShowLoading true; Fetch GetFields; ConsoleError "Failed to fetch";
                        ShowError (Some "Failed to fetch"); ShowLoading false];
          issued := 1 |}).
Proof.
  apply (loadInitialData_schema_failure backend_down
           {| app := app_editing; log := []; issued := 0 |} "Failed to fetch").
  reflexivity.
Defined.

(** X16. When the schema arrives and the rows request fails, the new
    schema and its columns are installed while the rows are not: the
    grid is handed the new columns and keeps the rows it had, and the
    controller is marked disconnected. *)
Theorem loadInitialData_rows_failure backend w o1 b1 e :
  backend (issued w) GetFields = Responded {| ok := o1; json := inr b1 |} →
  truthy (j_error b1) = false →
  load_failure (backend (S (issued w)) GetData) = Some e →
  loadInitialData backend w
    = (Ok (),
       {| app := set_isConnected false (set_fields (default [] (j_fields b1)) (app w));
          log := log w ++
                 [ShowLoading true; Fetch GetFields;
                  SetColumnDefs (default [] (j_fields b1)); Fetch GetData;
                  ConsoleError e; ShowError (Some e); ShowLoading false];
          issued := S (S (issued w)) |}).
Proof.
  intros H1 He1 Hfail. unfold loadInitialData, load_failure in *. run_step.
  rewrite H1. simpl. rewrite He1. simpl.
  destruct (backend (S (issued w)) GetData) as [e'|[o [e'|b]]]; simpl in *;
    [simplify_eq; by rewrite <-!app_assoc ..|].
  destruct (truthy (j_error b)); simpl in *; [|done].
  simplify_eq. by rewrite <-!app_assoc.
Qed.

Lemma loadInitialData_rows_failure_witness :
  loadInitialData backend_rows_down new_world
    = (Ok (),
       {| app := set_isConnected false
                   (set_fields (default [] (j_fields schema_body)) (app new_world));
          log := log new_world ++
                 [ShowLoading true; Fetch GetFields;
                  SetColumnDefs (default [] (j_fields schema_body)); Fetch GetData;
                  ConsoleError "Failed to fetch"; ShowError (Some "Failed to fetch");
                  ShowLoading false];
          issued := S (S (issued new_world)) |}).
Proof.
  apply (loadInitialData_rows_failure backend_rows_down new_world true schema_body
           "Failed to fetch"); reflexivity.
Defined.

(** X17. [refreshData] completes whatever the backend answers, even when
    the reload fails, and always ends with an empty pending map, the
    badge at 0 and the save button disabled; it shows no toast, so
    nothing warns of the edits it drops. *)
Theorem refreshData_discards_pending backend w :
  ∃ w', refreshData backend w = (Ok (), w') ∧
        pendingChanges (app w') = [] ∧
        shown_count (log w') = Some 0%nat ∧
        shown_save_enabled (log w') = Some false ∧
        toasts (log w') = toasts (log w).
Proof.
  destruct (refreshData_app backend w) as (w1 & Hrun & _ & _ & _ & Ht).
  destruct (refreshData_display backend w) as (w2 & Hrun2 & Hd & _).
  rewrite Hrun in Hrun2. injection Hrun2 as <-.
  exists w1. unfold display in Hd. injection Hd as Hp Hc Hs. done.
Qed.

(** ** More on the modal create path *)

Lemma validateRowData_nil_iff (fields : list Field) (data : JsObject) :
  validateRowData fields data = [] ↔
  ∀ field, field ∈ fields → required field = true →
           truthy (get_prop data (name field)) = true.
Proof.
  induction fields as [|f fields IH].
  - split; [|done]. intros _ field Hin. by apply elem_of_nil in Hin.
  - rewrite validateRowData_cons. split.
    + intros Happ field Hin Hreq.
      apply app_eq_nil in Happ as [Hf Hrest].
      apply elem_of_cons in Hin as [->|Hin].
      * destruct (truthy (get_prop data (name f))) eqn:Ht; [done|].
        by rewrite field_errors_falsy in Hf.
      * by apply IH.
    + intros Hall. destruct (required f) eqn:Hreq.
      * rewrite field_errors_truthy by (apply Hall; [by left|done]).
        apply IH. intros field Hin. apply Hall. by right.
      * rewrite field_errors_optional by done.
        apply IH. intros field Hin. apply Hall. by right.
Qed.

(** X18. A submitted object passes validation exactly when every
    required field of the schema has a truthy value in it. *)
Theorem validateRowData_passes_iff (fields : list Field) (data : JsObject) :
  validateRowData fields data = [] ↔
  ∀ field, field ∈ fields → required field = true →
           truthy (get_prop data (name field)) = true.
Proof. apply validateRowData_nil_iff. Qed.

Lemma validateRowData_passes_iff_witness :
  validateRowData [title_field; quantity_field]
    {[ "Title" := VStr "x"; "Qty" := VNum 5 ]} = [].
Proof.
  apply (proj2 (validateRowData_passes_iff [title_field; quantity_field]
                  {[ "Title" := VStr "x"; "Qty" := VNum 5 ]})).
  intros field Hin _.
  apply elem_of_cons in Hin as [->|Hin]; [vm_compute; reflexivity|].
  apply elem_of_cons in Hin as [->|Hin]; [vm_compute; reflexivity|].
  by apply elem_of_nil in Hin.
Defined.

Lemma truthy_VStr value : truthy (VStr value) = true ↔ value ≠ "".
Proof.
  simpl. rewrite negb_true_iff. split.
  - intros Hneq ->. done.
  - intros Hne. by apply String.eqb_neq.
Qed.

(** X20. When the create request fails (rejected, unparsable, or a body
    whose [success] is falsy), [saveRowFromModal] shows the error in one
    toast and stops: the modal is not hidden, nothing is refreshed, and
    the application object, pending map included, is as it was. A body
    without an [error] gives the message ["Failed to add row"]. *)
Theorem saveRowFromModal_failure backend parseFloat a entries checked e :
  validateRowData (fields a) (form_data parseFloat (fields a) checked entries) = [] →
  create_failure (backend 0%nat (PostItem (form_data parseFloat (fields a) checked entries)))
    = Some e →
  run (saveRowFromModal backend parseFloat entries checked) a
    = (Ok (),
       {| app := a;
          log := [Fetch (PostItem (form_data parseFloat (fields a) checked entries));
                  ShowToast ("Error adding row: " +:+ e) "error"];
          issued := 1 |}).
Proof.
  intros Herr Hfail. unfold run, saveRowFromModal, create_failure in *. run_step.
  rewrite Herr. run_step.
  destruct (backend 0%nat _) as [e'|[o [e'|b]]]; simpl in *; [by simplify_eq ..|].
  destruct (truthy (j_success b)); simpl in *; by simplify_eq.
Qed.

Lemma saveRowFromModal_failure_witness :
  run (saveRowFromModal backend_create_fails parseFloat_NaN [("Title", "x")] (λ _, false))
      app_editing
    = (Ok (),
       {| app := app_editing;
          log := [Fetch (PostItem (form_data parseFloat_NaN (fields app_editing)
                                     (λ _, false) [("Title", "x")]));
                  ShowToast ("Error adding row: " +:+ "Title already used") "error"];
          issued := 1 |}).
Proof.
  apply (saveRowFromModal_failure backend_create_fails parseFloat_NaN app_editing
           [("Title", "x")] (λ _, false) "Title already used").
  - vm_compute. reflexivity.
  - reflexivity.
Defined.

Section BlankField.
Variable parseFloat : string → JsValue.
Variable fields : list Field.
Variable checked : string → bool.

Lemma form_entry_other_key data entry key :
  entry.1 ≠ key →
  form_entry parseFloat fields checked data entry !! key = data !! key.
Proof.
  destruct entry as [k value]. simpl. intros Hne. unfold form_entry.
  destruct (List.find _ fields); [|done].
  repeat case_bool_decide; by rewrite lookup_insert_ne.
Qed.

Lemma foldl_form_entry_other_key entries data key :
  (∀ entry, entry ∈ entries → entry.1 ≠ key) →
  foldl (form_entry parseFloat fields checked) data entries !! key = data !! key.
Proof.
  revert data. induction entries as [|entry entries IH]; intros data Hall; [done|].
  simpl. rewrite IH by (intros e He; apply Hall; by right).
  apply form_entry_other_key, Hall. by left.
Qed.

Lemma form_data_blank entries1 entries2 field :
  List.find (λ f, bool_decide (name f = name field)) fields = Some field →
  type field ≠ "Boolean" →
  (∀ entry, entry ∈ entries2 → entry.1 ≠ name field) →
  form_data parseFloat fields checked (entries1 ++ (name field, "") :: entries2)
    !! name field = Some VNull.
Proof.
  intros Hfind Htype Hafter. unfold form_data. rewrite foldl_app. simpl.
  rewrite foldl_form_entry_other_key by done.
  rewrite Hfind, bool_decide_eq_false_2 by done.
  case_bool_decide; by rewrite lookup_insert_eq.
Qed.
End BlankField.

Section FormLookup.
Variable parseFloat : string → JsValue.
Variable fields : list Field.
Variable checked : string → bool.

(** The conversion loop from any starting object: a key the form
    submits for a field of the schema ends with the conversion of its
    last input; every other key keeps what the object held. *)
Lemma foldl_form_entry_lookup entries data key :
  foldl (form_entry parseFloat fields checked) data entries !! key =
    match List.find (λ f, bool_decide (name f = key)) fields,
          last (filter (λ entry, entry.1 = key) entries) with
    | Some field, Some (_, value) =>
        Some (if decide (type field = "Boolean") then VBool (checked key)
              else if decide (value = "") then VNull
              else if decide (type field = "Number") then parseFloat value
              else VStr value)
    | _, _ => data !! key
    end.
Proof.
  revert data. induction entries as [|[k value] entries IH]; intros data.
  - simpl. by destruct (List.find _ fields).
  - cbn [foldl]. rewrite IH, filter_cons.
    destruct (decide (k = key)) as [->|Hne].
    + rewrite decide_True by done. rewrite last_cons.
      destruct (List.find (λ f, bool_decide (name f = key)) fields) as [field|] eqn:Hfind;
        [|unfold form_entry; by rewrite Hfind].
      destruct (last (filter (λ entry, entry.1 = key) entries)) as [[k' value']|];
        [done|].
      unfold form_entry. rewrite Hfind.
      destruct (decide (type field = "Boolean")) as [Hb|Hb].
      { rewrite bool_decide_eq_true_2 by done. by rewrite lookup_insert_eq. }
      rewrite bool_decide_eq_false_2 by done.
      destruct (decide (type field = "Number")) as [Hn|Hn].
      { rewrite bool_decide_eq_true_2 by done. rewrite lookup_insert_eq.
        destruct (decide (value = "")) as [->|Hv]; [done|].
        apply String.eqb_neq in Hv. simpl. by rewrite Hv. }
      rewrite bool_decide_eq_false_2 by done. rewrite lookup_insert_eq.
      destruct (decide (value = "")) as [->|Hv]; [done|].
      apply String.eqb_neq in Hv. unfold js_or. simpl. by rewrite Hv.
    + rewrite decide_False by done.
      by rewrite (form_entry_other_key parseFloat fields checked data (k, value) key Hne).
Qed.
End FormLookup.

(** X19. The object [saveRowFromModal] builds from the form, key by
    key. A key holds a value exactly when it names a field of the schema
    and the form submits an input under it; the value then comes from the
    last such input: the state of the checkbox for a Boolean field,
    [null] for an empty input, what [parseFloat] makes of the text for a
    Number field, and the text itself for any other field. The key
    [__proto__], under which an assignment stores no property, is left
    out. *)
Theorem form_data_lookup parseFloat fields checked entries key :
  key ≠ "__proto__" →
  form_data parseFloat fields checked entries !! key =
    match List.find (λ f, bool_decide (name f = key)) fields,
          last (filter (λ entry, entry.1 = key) entries) with
    | Some field, Some (_, value) =>
        Some (if decide (type field = "Boolean") then VBool (checked key)
              else if decide (value = "") then VNull
              else if decide (type field = "Number") then parseFloat value
              else VStr value)
    | _, _ => None
    end.
Proof.
  intros _. unfold form_data. rewrite foldl_form_entry_lookup.
  destruct (List.find _ fields); [|done].
  by destruct (last _) as [[k value]|].
Qed.

Lemma form_data_lookup_witness :
  form_data parseFloat_NaN [title_field; quantity_field; done_field] (λ _, true)
      [("Qty", "12"); ("Unknown", "x"); ("Qty", ""); ("Done", "on")] !! "Qty" =
    match List.find (λ f, bool_decide (name f = "Qty"))
            [title_field; quantity_field; done_field],
          last (filter (λ entry, entry.1 = "Qty")
                  [("Qty", "12"); ("Unknown", "x"); ("Qty", ""); ("Done", "on")]) with
    | Some field, Some (_, value) =>
        Some (if decide (type field = "Boolean") then VBool true
              else if decide (value = "") then VNull
              else if decide (type field = "Number") then parseFloat_NaN value
              else VStr value)
    | _, _ => None
    end.
Proof.
  apply (form_data_lookup parseFloat_NaN [title_field; quantity_field; done_field]
           (λ _, true) [("Qty", "12"); ("Unknown", "x"); ("Qty", ""); ("Done", "on")]
           "Qty").
  discriminate.
Defined.

Example form_data_of_sample_form :
  form_data parseFloat_NaN [title_field; quantity_field; done_field] (λ _, true)
      [("Qty", "12"); ("Unknown", "x"); ("Qty", ""); ("Title", "a"); ("Done", "on")]
    = {[ "Qty" := VNull; "Title" := VStr "a"; "Done" := VBool true ]}.
Proof. vm_compute. reflexivity. Qed.

(** X21. A required field that is not a checkbox and whose input is
    submitted empty always stops the modal create: the handler shows the
    validation toast and issues no request, whatever the other inputs
    hold. *)
Theorem saveRowFromModal_blank_required backend parseFloat a entries1 entries2 field checked :
  List.find (λ f, bool_decide (name f = name field)) (fields a) = Some field →
  required field = true →
  type field ≠ "Boolean" →
  (∀ entry, entry ∈ entries2 → entry.1 ≠ name field) →
  ∃ message,
    run (saveRowFromModal backend parseFloat
           (entries1 ++ (name field, "") :: entries2) checked) a
      = (Ok (), {| app := a; log := [ShowToast message "error"]; issued := 0 |}).
Proof.
  intros Hfind Hreq Htype Hafter.
  apply saveRowFromModal_rejected. intros Hpass.
  apply validateRowData_nil_iff with (field := field) in Hpass; [|
    apply List.find_some in Hfind as [Hin _]; by apply list_elem_of_In | done].
  unfold get_prop in Hpass.
  by rewrite (form_data_blank parseFloat (fields a) checked entries1 entries2 field)
    in Hpass.
Qed.

Lemma saveRowFromModal_blank_required_witness :
  ∃ message,
    run (saveRowFromModal backend_all_ok parseFloat_NaN
           ([("Done", "on")] ++ (name title_field, "") :: []) (λ _, true))
        (set_fields [done_field; title_field] new_app)
      = (Ok (), {| app := set_fields [done_field; title_field] new_app;
                   log := [ShowToast message "error"]; issued := 0 |}).
Proof.
  apply (saveRowFromModal_blank_required backend_all_ok parseFloat_NaN
           (set_fields [done_field; title_field] new_app) [("Done", "on")] []
           title_field (λ _, true)).
  - reflexivity.
  - reflexivity.
  - discriminate.
  - intros entry Hin. by apply elem_of_nil in Hin.
Defined.

(** ** More on deleting *)

(** X22. A confirmation is used once. With a confirmation pending, so
    that the confirm modal has been created, [executeConfirmedAction]
    completes and clears the stored action; running it again only hides
    the modal and issues no request. *)
Theorem executeConfirmedAction_once backend w rows :
  pendingConfirmAction (app w) = Some rows →
  ∃ w', executeConfirmedAction backend w = (Ok (), w') ∧
        pendingConfirmAction (app w') = None ∧
        executeConfirmedAction backend w'
          = (Ok (), {| app := app w'; log := log w' ++ [HideModal "confirmModal"];
                       issued := issued w' |}).
Proof.
  intros _.
  destruct (executeConfirmedAction_step backend w) as (w' & Hrun & _ & Hnone).
  exists w'. split; [exact Hrun|]. split; [exact Hnone|].
  unfold executeConfirmedAction. run_step. by rewrite Hnone.
Qed.

(** One row is selected and its deletion asked for; the confirmation is
    then clicked twice. *)
Lemma executeConfirmedAction_once_witness :
  pendingConfirmAction (app (run (deleteSelectedRows [row_1]) app_pending).2)
    = Some [row_1] ∧
  ∃ w', executeConfirmedAction backend_all_ok
          (run (deleteSelectedRows [row_1]) app_pending).2 = (Ok (), w') ∧
        pendingConfirmAction (app w') = None ∧
        executeConfirmedAction backend_all_ok w'
          = (Ok (), {| app := app w'; log := log w' ++ [HideModal "confirmModal"];
                       issued := issued w' |}).
Proof.
  split; [reflexivity|].
  apply (executeConfirmedAction_once backend_all_ok
           (run (deleteSelectedRows [row_1]) app_pending).2 [row_1]).
  reflexivity.
Defined.

(** X23. When every delete of a confirmed selection succeeds, the
    refresh that follows clears the pending map: uncommitted edits of
    other rows are dropped with the deleted rows. *)
Theorem confirmed_delete_clears_pending backend a rows :
  rows ≠ [] →
  (∀ i row, rows !! i = Some row →
            delete_ok (backend i (delete_request row)) = true) →
  ∃ w, run (deleteSelectedRows rows;; executeConfirmedAction backend) a = (Ok (), w) ∧
       pendingChanges (app w) = [] ∧
       pendingConfirmAction (app w) = None.
Proof.
  intros Hne Hok. unfold run, deleteSelectedRows, executeConfirmedAction, confirm_delete.
  case_decide as Hlen; [by destruct rows|].
  run_step. rewrite delete_loop_all by done. simpl.
  match goal with |- context [refreshData backend ?w0] =>
    destruct (refreshData_app backend w0) as (w1 & -> & Hp & _ & _ & _) end.
  eexists; split; [reflexivity|]. done.
Qed.

Lemma confirmed_delete_clears_pending_witness :
  pendingChanges app_pending ≠ [] ∧
  ∃ w, run (deleteSelectedRows [row_1; row_2];; executeConfirmedAction backend_all_ok)
         app_pending = (Ok (), w) ∧
       pendingChanges (app w) = [] ∧
       pendingConfirmAction (app w) = None.
Proof.
  split; [discriminate|].
  apply (confirmed_delete_clears_pending backend_all_ok app_pending [row_1; row_2]).
  - discriminate.
  - intros i row _. reflexivity.
Defined.

(** X24. When a delete request is rejected, the confirmed delete stops
    there as for a non-2xx status, but the toast carries the message of
    the rejection and does not name the row. *)
Theorem confirmed_delete_rejected backend a deleted failed later e :
  (∀ i row, deleted !! i = Some row →
            delete_ok (backend i (delete_request row)) = true) →
  backend (length deleted) (delete_request failed) = Rejected e →
  ∃ w, run (deleteSelectedRows (deleted ++ failed :: later);;
            executeConfirmedAction backend) a = (Ok (), w) ∧
       requests (log w) = delete_request <$> (deleted ++ [failed]) ∧
       toasts (log w) = [("Error deleting rows: " +:+ e, "error")] ∧
       pendingChanges (app w) = pendingChanges a.
Proof.
  intros Hok Hreply.
  destruct (confirmed_delete_failure backend a deleted failed later Hok)
    as (w & Hrun & Hreq & Htoast & Hp).
  { by rewrite Hreply. }
  exists w. rewrite Hreply in Htoast. done.
Qed.

Lemma confirmed_delete_rejected_witness :
  ∃ w, run (deleteSelectedRows ([row_1] ++ row_2 :: [row_3]);;
            executeConfirmedAction backend_second_rejected) app_pending = (Ok (), w) ∧
       requests (log w) = delete_request <$> ([row_1] ++ [row_2]) ∧
       toasts (log w) = [("Error deleting rows: " +:+ "Failed to fetch", "error")] ∧
       pendingChanges (app w) = pendingChanges app_pending.
Proof.
  apply (confirmed_delete_rejected backend_second_rejected app_pending
           [row_1] row_2 [row_3] "Failed to fetch").
  - intros [|i] row Hrow; [reflexivity | destruct i; discriminate].
  - reflexivity.
Defined.

(** ** Export *)

(** X25. [exportData] issues exactly one request and never changes the
    application object. When the request is rejected, the status is not
    2xx or the blob cannot be read, it shows the error in a toast and
    downloads nothing; otherwise it shows the success toast and triggers
    one download. *)
Theorem exportData_outcome backend payload_of today format a :
  run (exportData backend payload_of today format) a =
    match export_failure (backend 0%nat (GetExport format)) (payload_of 0%nat) with
    | Some e =>
        (Ok [],
         {| app := a;
            log := [Fetch (GetExport format);
                    ShowToast ("Error exporting data: " +:+ e) "error"];
            issued := 1 |})
    | None =>
        (Ok [DownloadAs (export_filename today format
                           (content_disposition (payload_of 0%nat)))],
         {| app := a;
            log := [Fetch (GetExport format);
                    ShowToast "Export completed successfully" "success"];
            issued := 1 |})
    end.
Proof.
  unfold run, exportData, export_failure, get_issued. run_step.
  destruct (backend 0%nat (GetExport format)) as [e|resp]; simpl; [done|].
  destruct (ok resp); simpl; [|done].
  by destruct (blob_error (payload_of 0%nat)).
Qed.

Lemma strip_prefix_no_char (q : Ascii.ascii) p s :
  string_forall (λ c, negb (Ascii.eqb c q)) s = true →
  string_forall (λ c, negb (Ascii.eqb c q)) p = false →
  strip_prefix p s = None.
Proof.
  revert s. induction p as [|a p IH]; intros s Hs Hp; simpl in *; [done|].
  destruct s as [|b s]; [done|]. simpl in Hs.
  apply andb_true_iff in Hs as [Hb Hs].
  destruct (Ascii.eqb a b) eqn:Hab; [|done].
  apply Ascii.eqb_eq in Hab as ->. rewrite Hb in Hp. simpl in Hp. by apply IH.
Qed.

Lemma match_filename_no_quote s :
  string_forall (λ c, negb (Ascii.eqb c quote_char)) s = true →
  match_filename s = None.
Proof.
  induction s as [|c s IH]; intros Hs.
  - done.
  - cbn [match_filename].
    rewrite (strip_prefix_no_char quote_char) by (done || vm_compute; reflexivity).
    simpl. apply IH. simpl in Hs. by apply andb_true_iff in Hs as [_ ?].
Qed.

(** X26. Without a [content-disposition] header, with an empty one, or
    with one that holds no double quote (an unquoted [filename=]), the
    download is named [sharepoint_data_<date>.<format>]. *)
Theorem export_filename_default today format header :
  (∀ h, header = Some h →
        string_forall (λ c, negb (Ascii.eqb c quote_char)) h = true) →
  export_filename today format header
    = "sharepoint_data_" +:+ today +:+ "." +:+ format.
Proof.
  intros Hq. unfold export_filename. destruct header as [h|]; [|done].
  destruct (truthy (VStr h)); [|done].
  by rewrite match_filename_no_quote by (by apply Hq).
Qed.

Lemma export_filename_default_witness :
  export_filename "2024-01-01" "csv" (Some "attachment; filename=report.csv")
    = "sharepoint_data_" +:+ "2024-01-01" +:+ "." +:+ "csv".
Proof.
  apply (export_filename_default "2024-01-01" "csv"
           (Some "attachment; filename=report.csv")).
  intros h [= <-]. vm_compute. reflexivity.
Defined.

Lemma dot_run_app_quote x :
  string_forall (λ c, negb (is_line_terminator c)) x = true →
  dot_run (x +:+ String quote_char "") = x +:+ String quote_char "".
Proof.
  induction x as [|c x IH]; intros Hx; simpl in *; [done|].
  apply andb_true_iff in Hx as [Hc Hx]. apply negb_true_iff in Hc.
  rewrite Hc. by rewrite IH.
Qed.

Lemma before_last_quote_app x :
  before_last_quote (x +:+ String quote_char "") = Some x.
Proof. induction x as [|c x IH]; simpl; [done|]. by rewrite IH. Qed.

Lemma group_at_quoted x :
  x ≠ "" →
  string_forall (λ c, negb (is_line_terminator c)) x = true →
  group_at (x +:+ String quote_char "") = Some x.
Proof.
  intros Hne Hx. unfold group_at. rewrite dot_run_app_quote by done.
  destruct x as [|c x]; [done|]. simpl. by rewrite before_last_quote_app.
Qed.

Lemma match_filename_unfold s :
  match_filename s =
    match strip_prefix filename_literal s ≫= group_at with
    | Some g => Some g
    | None => match s with EmptyString => None | String _ s' => match_filename s' end
    end.
Proof. by destruct s. Qed.

Lemma strip_prefix_app p s : strip_prefix p (p +:+ s) = Some s.
Proof.
  induction p as [|a p IH]; simpl; [by destruct s|]. by rewrite Ascii.eqb_refl.
Qed.

Lemma strip_prefix_head a p b s :
  Ascii.eqb a b = false → strip_prefix (String a p) (String b s) = None.
Proof. simpl. by intros ->. Qed.

Lemma match_filename_quoted pre x :
  string_forall (λ c, negb (Ascii.eqb c letter_f)) pre = true →
  x ≠ "" →
  string_forall (λ c, negb (is_line_terminator c)) x = true →
  match_filename (pre +:+ filename_literal +:+ x +:+ String quote_char "") = Some x.
Proof.
  intros Hpre Hne Hx. induction pre as [|c pre IH]; rewrite match_filename_unfold.
  - change ("" +:+ filename_literal +:+ x +:+ String quote_char "")
      with (filename_literal +:+ (x +:+ String quote_char "")).
    rewrite strip_prefix_app. cbn [mbind option_bind].
    by rewrite group_at_quoted.
  - simpl in Hpre. apply andb_true_iff in Hpre as [Hc Hpre].
    apply negb_true_iff in Hc. rewrite Ascii.eqb_sym in Hc.
    change (String c pre +:+ filename_literal +:+ x +:+ String quote_char "")
      with (String c (pre +:+ filename_literal +:+ x +:+ String quote_char "")).
    change filename_literal
      with (String letter_f ("ilename=" +:+ String quote_char "")) at 1.
    rewrite strip_prefix_head by done. cbn [mbind option_bind]. by apply IH.
Qed.

(** X27. When the [content-disposition] header is some text without the
    letter [f], then [filename=] and a quoted non-empty name on one
    line, the download gets exactly that name, quotes inside it
    included. *)
Theorem export_filename_quoted today format pre x :
  string_forall (λ c, negb (Ascii.eqb c letter_f)) pre = true →
  x ≠ "" →
  string_forall (λ c, negb (is_line_terminator c)) x = true →
  export_filename today format
    (Some (pre +:+ filename_literal +:+ x +:+ String quote_char "")) = x.
Proof.
  intros Hpre Hne Hx. unfold export_filename.
  rewrite match_filename_quoted by done.
  assert (truthy (VStr (pre +:+ filename_literal +:+ x +:+ String quote_char ""))
          = true) as ->; [|done].
  simpl. destruct pre; done.
Qed.

Lemma export_filename_quoted_witness :
  export_filename "2024-01-01" "excel"
    (Some ("attachment; " +:+ filename_literal +:+ "report.xlsx"
           +:+ String quote_char "")) = "report.xlsx".
Proof.
  apply (export_filename_quoted "2024-01-01" "excel" "attachment; " "report.xlsx").
  - vm_compute. reflexivity.
  - discriminate.
  - vm_compute. reflexivity.
Defined.

(** ** Keys *)

(** X28. A key press that is no shortcut does nothing at all: with
    Ctrl or Meta held, the keys are exactly [s], [n], [r] and [f] (in
    lower case); the [Delete] key acts only on a non-empty selection.
    Any other press leaves the application object and the page
    untouched and does not prevent the browser's default. *)
Theorem handleKeyboardShortcuts_other_keys backend event selectedRows w :
  (ctrlKey event || metaKey event = true →
   key event ≠ "s" ∧ key event ≠ "n" ∧ key event ≠ "r" ∧ key event ≠ "f") →
  (key event = "Delete" → selectedRows = []) →
  handleKeyboardShortcuts backend event selectedRows w = (Ok [], w).
Proof.
  intros Hkeys Hdel. unfold handleKeyboardShortcuts.
  assert ((if bool_decide (key event = "Delete")
           then if decide (0 < length selectedRows)%nat
                then deleteSelectedRows selectedRows else mret ()
           else mret ()) = mret ()) as ->.
  { case_bool_decide as Hk; [|done]. rewrite (Hdel Hk). done. }
  destruct (ctrlKey event || metaKey event); [|done].
  destruct (Hkeys eq_refl) as (Hs & Hn & Hr & Hf).
  by rewrite !bool_decide_eq_false_2 by done.
Qed.

Lemma handleKeyboardShortcuts_other_keys_witness :
  handleKeyboardShortcuts backend_all_ok
    {| ctrlKey := true; metaKey := false; key := "S" |} [row_1] new_world
    = (Ok [], new_world).
Proof.
  apply (handleKeyboardShortcuts_other_keys backend_all_ok
           {| ctrlKey := true; metaKey := false; key := "S" |} [row_1] new_world).
  - intros _. repeat split; discriminate.
  - discriminate.
Defined.

(** X29. [navigateToNextCell] by key. Key code 40 moves one row below
    the suggested cell and 38 one row above it, both keeping the column;
    37 keeps the row and takes the column [getDisplayedColAfter] gives,
    39 the one [getDisplayedColBefore] gives. For every other key, a key
    name such as ["ArrowDown"] or any other number included, the
    suggestion is returned as it is. The vertical moves undo each
    other. *)
Theorem navigateToNextCell_keys {Column : Type}
    (getDisplayedColAfter getDisplayedColBefore : Column → option Column)
    (key_code : JsValue) (row : Z) (col : Column) :
  (key_code ≠ VNum 37 → key_code ≠ VNum 38 → key_code ≠ VNum 39 → key_code ≠ VNum 40 →
   navigateToNextCell getDisplayedColAfter getDisplayedColBefore key_code row col
     = {| rowIndex := row; column := Some col |}) ∧
  navigateToNextCell getDisplayedColAfter getDisplayedColBefore (VNum 40) row col
    = {| rowIndex := row + 1; column := Some col |} ∧
  navigateToNextCell getDisplayedColAfter getDisplayedColBefore (VNum 38) row col
    = {| rowIndex := row - 1; column := Some col |} ∧
  navigateToNextCell getDisplayedColAfter getDisplayedColBefore (VNum 37) row col
    = {| rowIndex := row; column := getDisplayedColAfter col |} ∧
  navigateToNextCell getDisplayedColAfter getDisplayedColBefore (VNum 39) row col
    = {| rowIndex := row; column := getDisplayedColBefore col |} ∧
  navigateToNextCell getDisplayedColAfter getDisplayedColBefore (VNum 38)
    (rowIndex (navigateToNextCell getDisplayedColAfter getDisplayedColBefore
                 (VNum 40) row col)) col
    = {| rowIndex := row; column := Some col |}.
Proof.
  split_and!; try reflexivity.
  - intros H37 H38 H39 H40. unfold navigateToNextCell, strict_eq.
    destruct key_code as [| | | n | |]; try done.
    by rewrite !bool_decide_eq_false_2.
  - unfold navigateToNextCell. simpl. f_equal. lia.
Qed.

Lemma navigateToNextCell_keys_witness :
  navigateToNextCell (λ c : nat, Some (S c)) (λ c : nat, Some (pred c))
    (VNum 13) 3 2%nat
    = {| rowIndex := 3; column := Some 2%nat |} ∧
  navigateToNextCell (λ c : nat, Some (S c)) (λ c : nat, Some (pred c))
    (VStr "ArrowDown") 3 2%nat
    = {| rowIndex := 3; column := Some 2%nat |}.
Proof.
  split.
  - apply (proj1 (navigateToNextCell_keys (λ c : nat, Some (S c)) (λ c : nat, Some (pred c))
                    (VNum 13) 3 2%nat)); discriminate.
  - apply (proj1 (navigateToNextCell_keys (λ c : nat, Some (S c)) (λ c : nat, Some (pred c))
                    (VStr "ArrowDown") 3 2%nat)); discriminate.
Defined.

(** ** The add form *)



